(** * Image metadata of development containers

    A shallow embedding of [src/spec-node/imageMetadata.ts]: the projection
    of configuration and feature objects to metadata entries, the label
    codec ([getDevcontainerMetadataLabel], [toLabelString],
    [internalGetImageMetadata]) and the build-info resolver
    ([getImageBuildInfo] and its helpers).

    JavaScript values are modelled by the type [json]; an object is the list
    of its properties in enumeration order.  Functions that call
    collaborators (file system, image inspection, output sink) run in a small
    monad that records every call in a trace and propagates thrown errors. *)

From Stdlib Require Import List String Ascii ZArith Lia Bool Arith.
From Stdlib Require Import DecimalString DecimalZ.
Import ListNotations.

Local Open Scope list_scope.
Local Open Scope string_scope.

(* ================================================================== *)
(** * Part 1: the embedding *)
(* ================================================================== *)

(** ** JavaScript values *)

(** The values that occur in configuration objects, in feature objects and
    in decoded labels.  A number is modelled by its integer value (see
    [safe_integer]); an object by its properties in enumeration order. *)
Unset Elimination Schemes.
Inductive json : Type :=
| JNull
| JBool (b : bool)
| JNum (z : Z)
| JStr (s : string)
| JArr (l : list json)
| JObj (m : list (string * json)).
Set Elimination Schemes.

Definition jsobj : Type := list (string * json).

(** [obj[key]] on an object that owns [key]; [None] when [key in obj] is
    false. *)
Fixpoint prop_get (o : jsobj) (key : string) : option json :=
  match o with
  | [] => None
  | (k, v) :: o' => if String.eqb k key then Some v else prop_get o' key
  end.

(** [key in obj], for the keys of the allow-lists: none of them is a name
    that a plain object inherits, so the object's own properties decide. *)
Definition key_in (key : string) (o : jsobj) : bool :=
  match prop_get o key with
  | Some _ => true
  | None => false
  end.

(** [res[key] = v]: an existing property keeps its place and takes the new
    value, a new property is added after the others. *)
Fixpoint prop_set (o : jsobj) (key : string) (v : json) : jsobj :=
  match o with
  | [] => [(key, v)]
  | (k, w) :: o' =>
      if String.eqb k key then (k, v) :: o' else (k, w) :: prop_set o' key v
  end.

(** ** Allow-lists (lines 14-50) *)

Definition pickConfigProperties : list string :=
  [ "onCreateCommand";
    "updateContentCommand";
    "postCreateCommand";
    "postStartCommand";
    "postAttachCommand";
    "waitFor";
    "customizations";
    "remoteUser";
    "userEnvProbe";
    "remoteEnv";
    "overrideCommand";
    "portsAttributes";
    "otherPortsAttributes";
    "forwardPorts";
    "shutdownAction";
    "updateRemoteUserUID";
    "hostRequirements" ].

Definition pickSingleContainerConfigProperties : list string :=
  ([ "mounts"; "containerUser"; "containerEnv" ] ++ pickConfigProperties)%list.

Definition pickFeatureProperties : list string :=
  [ "id";
    "init";
    "privileged";
    "capAdd";
    "securityOpt";
    "entrypoint";
    "mounts";
    "customizations" ].

(** ** Projection (lines 81-101) *)

(** [pick]: a left-to-right [reduce] over the keys, starting from the empty
    object; a key is copied when [key in obj]. *)
Definition pick (obj : jsobj) (keys : list string) : jsobj :=
  fold_left
    (fun res key =>
       match prop_get obj key with
       | Some v => prop_set res key v
       | None => res
       end)
    keys [].

(** A feature set of a [FeaturesConfig]; only its [features] are read. *)
Record FeatureSet : Type := { features : list jsobj }.

(** The second argument of [getDevcontainerMetadata]:
    [FeaturesConfig | Feature[]]. *)
Inductive FeaturesInput : Type :=
| FeatureArray (fs : list jsobj)
| FeaturesConfig (featureSets : list FeatureSet).

(** Lines 82-85: the array itself, or the concatenation of the feature
    sets' [features]. *)
Definition featuresOf (featuresConfig : FeaturesInput) : list jsobj :=
  match featuresConfig with
  | FeatureArray fs => fs
  | FeaturesConfig featureSets => List.concat (map features featureSets)
  end.

Definition getDevcontainerMetadata
    (devContainerConfig : jsobj) (featuresConfig : FeaturesInput) : list json :=
  (map (fun feature => JObj (pick feature pickFeatureProperties))
       (featuresOf featuresConfig)
   ++ [ if key_in "dockerComposeFile" devContainerConfig
        then JObj (pick devContainerConfig pickConfigProperties)
        else JObj (pick devContainerConfig pickSingleContainerConfigProperties) ])%list.

(** ** Errors, collaborator calls and the trace monad *)

Inductive jserror : Type :=
| ContainerError (description : string)   (* new ContainerError({ description }) *)
| PlainError (message : string)           (* new Error(message) *)
| CollaboratorError (message : string).   (* thrown or rejected by a collaborator *)

(** Every call that leaves this module. *)
Inductive event : Type :=
| IsFile (path : string)
| ReadFile (path : string)
| InspectImage (imageName : string)
| ComposeFilePaths
| ReadComposeConfig (composeFiles : list string) (envFile : option string)
| JsonParse (text : string)
| OutputWrite (message : string).

(** A computation yields the calls it made, in order, and either the error
    it threw or its value. *)
Definition M (A : Type) : Type := (list event * (jserror + A))%type.

Definition ret {A : Type} (a : A) : M A := ([], inr a).

Definition throw {A : Type} (e : jserror) : M A := ([], inl e).

Definition bind {A B : Type} (m : M A) (k : A -> M B) : M B :=
  match m with
  | (t, inl e) => (t, inl e)
  | (t, inr a) => let (t', r) := k a in ((t ++ t')%list, r)
  end.

(** A collaborator call: the call is recorded, its outcome is the
    collaborator's. *)
Definition call {A : Type} (e : event) (r : jserror + A) : M A := ([e], r).

Notation "x <- m ;; k" := (bind m (fun x => k))
  (at level 61, m at next level, right associativity).
Notation "m ;;; k" := (bind m (fun _ => k))
  (at level 61, right associativity).

Definition trace {A : Type} (m : M A) : list event := fst m.
Definition outcome {A : Type} (m : M A) : jserror + A := snd m.

(** What a host function hands back to its caller: the value itself, or a
    promise of it.  [await] gives the value in both cases; as a condition
    the value counts for itself, whereas a promise is an object and counts
    as true. *)
Inductive answer (A : Type) : Type :=
| Plain (a : A)
| Promise (a : A).
Arguments Plain {A} a.
Arguments Promise {A} a.

Definition await {A : Type} (r : answer A) : A :=
  match r with
  | Plain a => a
  | Promise a => a
  end.

Definition toBoolean (r : answer bool) : bool :=
  match r with
  | Plain b => b
  | Promise _ => true
  end.

(** ** Inspected images and Compose configurations *)

Record ImageConfig : Type := {
  User : string;
  Labels : option (list (string * string))
}.

Record ImageDetails : Type := { Config : ImageConfig }.

Record ServiceBuild : Type := { context : string; dockerfilePath : string }.

Record ComposeConfig : Type := { services : option jsobj }.

(** ** Collaborators

    The functions this module imports ([isDockerFileConfig],
    [getDockerfilePath], [uriToWSLFsPath], [findUserStatement],
    [findBaseImage], [inspectDockerImage], [getDockerComposeFilePaths],
    [readDockerComposeConfig], [getBuildInfoForService]), the members of
    [cliHost] it uses, and the built-in [JSON.parse], whose failure is a
    [SyntaxError] with a message. *)
Record Collaborators : Type := {
  JSON_parse : string -> string + json;
  findUserStatement : string -> option string;
  findBaseImage : string -> option string;
  inspectDockerImage : string -> jserror + ImageDetails;
  isDockerFileConfig : jsobj -> bool;
  getDockerfilePath : jsobj -> string;
  uriToWSLFsPath : string -> string;
  isFile : string -> answer bool;
  readFile : string -> jserror + string;
  cwd : string;
  path_join : string -> string -> string;
  path_isAbsolute : string -> bool;
  path_resolve : string -> string -> string;
  getDockerComposeFilePaths : jsobj -> jserror + list string;
  readDockerComposeConfig : list string -> option string -> jserror + ComposeConfig;
  getBuildInfoForService : jsobj -> list string -> option ServiceBuild
}.

(** ** Small pieces of JavaScript *)

(** [a || fallback] on [string | undefined]: the empty string and
    [undefined] are falsy. *)
Definition or_else (a : option string) (fallback : string) : string :=
  match a with
  | Some s => if String.eqb s "" then fallback else s
  | None => fallback
  end.

(** A string used as a condition. *)
Definition nonempty (s : string) : bool := negb (String.eqb s "").

(** A value used as a condition. *)
Definition truthy (v : json) : bool :=
  match v with
  | JNull => false
  | JBool b => b
  | JNum z => negb (Z.eqb z 0)
  | JStr s => nonempty s
  | JArr _ => true
  | JObj _ => true
  end.

Definition Array_isArray (v : json) : bool :=
  match v with
  | JArr _ => true
  | _ => false
  end.

(** [typeof v === 'object']. *)
Definition typeof_object (v : json) : bool :=
  match v with
  | JNull | JArr _ | JObj _ => true
  | _ => false
  end.

(** An array taken as a sequence of entries. *)
Definition elements (v : json) : list json :=
  match v with
  | JArr l => l
  | _ => []
  end.

(** A property that the TypeScript types declare to be a string. *)
Definition string_prop (o : jsobj) (key : string) : string :=
  match prop_get o key with
  | Some (JStr s) => s
  | _ => ""
  end.

(** [labels[key]] on [Record<string, string | undefined>]. *)
Fixpoint label_get (labels : list (string * string)) (key : string) : option string :=
  match labels with
  | [] => None
  | (k, v) :: rest => if String.eqb k key then Some v else label_get rest key
  end.

(** [err?.message || err] inside a template, for the [SyntaxError] of
    [JSON.parse]. *)
Definition error_text (message : string) : string :=
  if nonempty message then message else "SyntaxError".

(** ** Decoding the label (lines 183-216) *)

Definition imageMetadataLabel : string := "devcontainer.metadata".

(** Line 200: [(imageDetails.Config.Labels || {})[imageMetadataLabel]]. *)
Definition metadataLabelOf (imageDetails : ImageDetails) : option string :=
  label_get (match Labels (Config imageDetails) with
             | Some labels => labels
             | None => []
             end) imageMetadataLabel.

Definition internalGetImageMetadata
    (c : Collaborators) (imageDetails : ImageDetails)
    (experimentalImageMetadata : bool) : M (list json) :=
  if negb experimentalImageMetadata then ret []
  else
    let str := metadataLabelOf imageDetails in
    match str with
    | Some str =>
        if nonempty str then
          parsed <- call (JsonParse str) (inr (JSON_parse c str)) ;;
          match parsed with
          | inr obj =>
              if Array_isArray obj then ret (elements obj)
              else if truthy obj && typeof_object obj then ret [obj]
              else call (OutputWrite ("Invalid image metadata: " ++ str)) (inr tt) ;;;
                   ret []
          | inl message =>
              call (OutputWrite ("Error parsing image metadata: " ++ error_text message))
                   (inr tt) ;;;
              ret []
          end
        else ret []
    | None => ret []
    end.

Definition getImageMetadata := internalGetImageMetadata.


(** ** Build info (lines 103-181) *)

Record ImageBuildInfo : Type := {
  user : string;
  metadata : list json;
  imageDetails : option ImageDetails   (* only set by [getImageBuildInfoFromImage] *)
}.

Definition getImageBuildInfoFromImage
    (c : Collaborators) (imageName : string)
    (experimentalImageMetadata : bool) : M ImageBuildInfo :=
  details <- call (InspectImage imageName) (inspectDockerImage c imageName) ;;
  let user := or_else (Some (User (Config details))) "root" in
  metadata <- getImageMetadata c details experimentalImageMetadata ;;
  ret {| user := user; metadata := metadata; imageDetails := Some details |}.

Definition internalGetImageBuildInfoFromDockerfile
    (c : Collaborators) (inspect : string -> M ImageDetails)
    (dockerfile : string) (experimentalImageMetadata : bool) : M ImageBuildInfo :=
  let dockerfileUser := findUserStatement c dockerfile in
  let baseImage := findBaseImage c dockerfile in
  details <- match baseImage with
             | Some name =>
                 if nonempty name
                 then d <- inspect name ;; ret (Some d)
                 else ret None
             | None => ret None
             end ;;
  let user :=
    or_else dockerfileUser
            (or_else (option_map (fun d => User (Config d)) details) "root") in
  metadata <- match details with
              | Some d => getImageMetadata c d experimentalImageMetadata
              | None => ret []
              end ;;
  ret {| user := user; metadata := metadata; imageDetails := None |}.

Definition getImageBuildInfoFromDockerfile
    (c : Collaborators) (dockerfile : string)
    (experimentalImageMetadata : bool) : M ImageBuildInfo :=
  internalGetImageBuildInfoFromDockerfile c
    (fun imageName => call (InspectImage imageName) (inspectDockerImage c imageName))
    dockerfile experimentalImageMetadata.

(** [Array.isArray(config.dockerComposeFile) &&
    config.dockerComposeFile.length === 0]. *)
Definition emptyComposeFileList (config : jsobj) : bool :=
  match prop_get config "dockerComposeFile" with
  | Some (JArr []) => true
  | _ => false
  end.

Definition getImageBuildInfo
    (c : Collaborators) (config : jsobj)
    (experimentalImageMetadata : bool) : M ImageBuildInfo :=
  if isDockerFileConfig c config then
    let dockerfileUri := getDockerfilePath c config in
    let dockerfilePath := uriToWSLFsPath c dockerfileUri in
    (* line 116: the answer of [isFile] is the condition, it is not awaited *)
    found <- call (IsFile dockerfilePath) (inr (isFile c dockerfilePath)) ;;
    if negb (toBoolean found) then
      throw (ContainerError ("Dockerfile (" ++ dockerfilePath ++ ") not found."))
    else
      dockerfile <- call (ReadFile dockerfilePath) (readFile c dockerfilePath) ;;
      getImageBuildInfoFromDockerfile c dockerfile experimentalImageMetadata
  else if key_in "dockerComposeFile" config then
    let cwdEnvFile := path_join c (cwd c) ".env" in
    envFile <- (if emptyComposeFileList config then
                  (* line 125: here the answer is awaited *)
                  found <- call (IsFile cwdEnvFile) (inr (isFile c cwdEnvFile)) ;;
                  ret (if await found then Some cwdEnvFile else None)
                else ret None) ;;
    composeFiles <- call ComposeFilePaths (getDockerComposeFilePaths c config) ;;
    composeConfig <- call (ReadComposeConfig composeFiles envFile)
                          (readDockerComposeConfig c composeFiles envFile) ;;
    let serviceTable := match services composeConfig with
                        | Some t => t
                        | None => []
                        end in
    let service := string_prop config "service" in
    match prop_get serviceTable service with
    | None =>
        throw (PlainError ("Service '" ++ service ++
          "' configured in devcontainer.json not found in Docker Compose configuration."))
    | Some composeService =>
        let composeService := match composeService with
                              | JObj m => m
                              | _ => []
                              end in
        match getBuildInfoForService c composeService composeFiles with
        | Some build =>
            let resolvedDockerfilePath :=
              if path_isAbsolute c (dockerfilePath build)
              then dockerfilePath build
              else path_resolve c (context build) (dockerfilePath build) in
            dockerfile <- call (ReadFile resolvedDockerfilePath)
                               (readFile c resolvedDockerfilePath) ;;
            getImageBuildInfoFromDockerfile c dockerfile experimentalImageMetadata
        | None =>
            getImageBuildInfoFromImage c (string_prop composeService "image")
              experimentalImageMetadata
        end
    end
  else
    getImageBuildInfoFromImage c (string_prop config "image") experimentalImageMetadata.

(** ** Characters *)

Definition dquote : ascii := "034"%char.
Definition backslash : ascii := "092"%char.
Definition newline : ascii := "010"%char.

(** ** [JSON.stringify] *)

(** Numbers: the decimal digits of the integer, with a minus sign when it is
    negative. *)
Definition number_text (z : Z) : string := NilZero.string_of_int (Z.to_int z).

Definition hex_digit (n : N) : ascii :=
  match n with
  | 0%N => "0" | 1%N => "1" | 2%N => "2" | 3%N => "3"
  | 4%N => "4" | 5%N => "5" | 6%N => "6" | 7%N => "7"
  | 8%N => "8" | 9%N => "9" | 10%N => "a" | 11%N => "b"
  | 12%N => "c" | 13%N => "d" | 14%N => "e" | _ => "f"
  end%char.

(** [QuoteJSONString], one character: the two-character escapes, [\u00xx]
    for the other control characters, the character itself otherwise. *)
Definition quote_char (c : ascii) : string :=
  let n := N_of_ascii c in
  if (n =? 8)%N then "\b"
  else if (n =? 9)%N then "\t"
  else if (n =? 10)%N then "\n"
  else if (n =? 12)%N then "\f"
  else if (n =? 13)%N then "\r"
  else if (n =? 34)%N then String backslash (String dquote "")
  else if (n =? 92)%N then "\\"
  else if (n <? 32)%N then
    "\u00" ++ String (hex_digit (n / 16)) (String (hex_digit (n mod 16)) "")
  else String c "".

Fixpoint quote_body (s : string) : string :=
  match s with
  | "" => ""
  | String c s' => quote_char c ++ quote_body s'
  end.

Definition QuoteJSONString (s : string) : string :=
  String dquote (quote_body s ++ String dquote "").

(** Compact serialization: no white space, members in enumeration order. *)
Fixpoint JSON_stringify (v : json) : string :=
  match v with
  | JNull => "null"
  | JBool true => "true"
  | JBool false => "false"
  | JNum z => number_text z
  | JStr s => QuoteJSONString s
  | JArr l => "[" ++ String.concat "," (map JSON_stringify l) ++ "]"
  | JObj m =>
      "{" ++ String.concat ","
               (map (fun kv => match kv with
                               | (k, w) => QuoteJSONString k ++ ":" ++ JSON_stringify w
                               end) m) ++ "}"
  end.

(** ** Encoding the label (lines 218-240) *)

(** The character class of the lookahead in line 239: double quote,
    backslash, dollar sign. *)
Definition lookahead (c : ascii) : bool :=
  Ascii.eqb c dquote || Ascii.eqb c backslash || Ascii.eqb c "$".

(** The matches of the global regular expression: the empty match at every
    index whose character is in the class; [i] is the index of the first
    character of [s]. *)
Fixpoint matchPositions (s : string) (i : nat) : list nat :=
  match s with
  | "" => []
  | String c s' =>
      if lookahead c then i :: matchPositions s' (S i) else matchPositions s' (S i)
  end.

(** The text of [s] from index [from] on. *)
Fixpoint string_from (from : nat) (s : string) : string :=
  match from, s with
  | 0, _ => s
  | S n, String _ s' => string_from n s'
  | S _, "" => ""
  end.

(** [String.prototype.replace] for empty matches at the positions [ps]: the
    text between two matches is copied and the replacement is put at each
    match. *)
Fixpoint replaceMatches (s : string) (from : nat) (ps : list nat) (replacement : string)
  : string :=
  match ps with
  | [] => string_from from s
  | p :: ps' =>
      substring from (p - from) s ++ replacement ++ replaceMatches s p ps' replacement
  end.

Definition toLabelString (obj : json) : string :=
  let text := JSON_stringify obj in
  replaceMatches text 0 (matchPositions text 0) (String backslash "").

(** Lines 229-233: the value of the label for a non-empty [metadata]. *)
Definition imageMetadataLabelValue (metadata : list json) : string :=
  if negb (Nat.eqb (List.length metadata) 1) then
    "[" ++ String.concat ","
             (map (fun feature =>
                     String " " (String backslash (String newline (toLabelString feature))))
                  metadata)
        ++ String " " (String backslash (String newline "]"))
  else toLabelString (hd JNull metadata).

(** Lines 222-225: the entries of the base image, then those of this
    layer. *)
Definition mergedMetadata
    (baseImageMetadata : list json) (devContainerConfig : jsobj)
    (featuresConfig : FeaturesInput) : list json :=
  (baseImageMetadata ++ getDevcontainerMetadata devContainerConfig featuresConfig)%list.

Definition getDevcontainerMetadataLabel
    (baseImageMetadata : list json) (devContainerConfig : jsobj)
    (featuresConfig : FeaturesInput) (experimentalImageMetadata : bool) : string :=
  if negb experimentalImageMetadata then ""
  else
    let metadata := mergedMetadata baseImageMetadata devContainerConfig featuresConfig in
    if Nat.eqb (List.length metadata) 0 then ""
    else
      "LABEL " ++ imageMetadataLabel ++ "="
        ++ String dquote (imageMetadataLabelValue metadata ++ String dquote "").

(** ** A model of [JSON.parse]

    The grammar of JSON texts over the values of [json]: white space between
    tokens, the literals, integers without fraction or exponent, strings
    with all escapes, arrays and objects.  A text outside this fragment (a
    fraction, an exponent, an integer that a number does not hold exactly,
    a [\u] escape above 00ff) is reported as a failure. *)

(** Integers that a JavaScript number holds exactly. *)
Definition safe_integer (z : Z) : bool := (Z.abs z <=? 9007199254740991)%Z.

Definition is_ws (c : ascii) : bool :=
  Ascii.eqb c " " || Ascii.eqb c "009" || Ascii.eqb c "010" || Ascii.eqb c "013".

Fixpoint skip_ws (s : string) : string :=
  match s with
  | String c s' => if is_ws c then skip_ws s' else s
  | "" => ""
  end.

(** The characters a number token is made of. *)
Definition is_number_char (c : ascii) : bool :=
  let n := N_of_ascii c in
  ((48 <=? n) && (n <=? 57))%N
  || Ascii.eqb c "-" || Ascii.eqb c "+" || Ascii.eqb c "."
  || Ascii.eqb c "e" || Ascii.eqb c "E".

Fixpoint span_number (s : string) : string * string :=
  match s with
  | String c s' =>
      if is_number_char c
      then let (tok, rest) := span_number s' in (String c tok, rest)
      else ("", s)
  | "" => ("", "")
  end.

(** A number token is accepted when it is the canonical text of a safe
    integer (no leading zero, no sign alone), or the negative zero. *)
Definition parse_number (s : string) : option (json * string) :=
  let (tok, rest) := span_number s in
  if String.eqb tok "-0" then Some (JNum 0, rest)
  else
    match NilZero.int_of_string tok with
    | Some d =>
        let z := Z.of_int d in
        if String.eqb (number_text z) tok && safe_integer z
        then Some (JNum z, rest)
        else None
    | None => None
    end.

Definition hex_value (c : ascii) : option N :=
  let n := N_of_ascii c in
  if ((48 <=? n) && (n <=? 57))%N then Some (n - 48)%N
  else if ((97 <=? n) && (n <=? 102))%N then Some (n - 87)%N
  else if ((65 <=? n) && (n <=? 70))%N then Some (n - 55)%N
  else None.

(** The character of the escape [\u] h1 h2 h3 h4, when it is at most 00ff. *)
Definition unicode_escape (h1 h2 h3 h4 : ascii) : option ascii :=
  match hex_value h1, hex_value h2, hex_value h3, hex_value h4 with
  | Some 0%N, Some 0%N, Some a, Some b => Some (ascii_of_N (16 * a + b))
  | _, _, _, _ => None
  end.

(** The character of a two-character escape. *)
Definition simple_escape (e : ascii) : option ascii :=
  if Ascii.eqb e dquote then Some dquote
  else if Ascii.eqb e backslash then Some backslash
  else if Ascii.eqb e "/" then Some "/"%char
  else if Ascii.eqb e "b" then Some "008"%char
  else if Ascii.eqb e "f" then Some "012"%char
  else if Ascii.eqb e "n" then Some "010"%char
  else if Ascii.eqb e "r" then Some "013"%char
  else if Ascii.eqb e "t" then Some "009"%char
  else None.

Definition prepend (c : ascii) (r : option (string * string)) : option (string * string) :=
  match r with
  | Some (t, rest) => Some (String c t, rest)
  | None => None
  end.

(** The characters of a string after its opening quote, up to the closing
    quote; the rest of the text follows. *)
Fixpoint parse_chars (s : string) : option (string * string) :=
  match s with
  | "" => None
  | String c r =>
      if Ascii.eqb c dquote then Some ("", r)
      else if Ascii.eqb c backslash then
        match r with
        | "" => None
        | String e r1 =>
            if Ascii.eqb e "u" then
              match r1 with
              | String h1 (String h2 (String h3 (String h4 r2))) =>
                  match unicode_escape h1 h2 h3 h4 with
                  | Some ch => prepend ch (parse_chars r2)
                  | None => None
                  end
              | _ => None
              end
            else
              match simple_escape e with
              | Some ch => prepend ch (parse_chars r1)
              | None => None
              end
        end
      else if (N_of_ascii c <? 32)%N then None
      else prepend c (parse_chars r)
  end.

(** [s] without the prefix [p]. *)
Fixpoint strip_prefix (p s : string) : option string :=
  match p, s with
  | "", _ => Some s
  | String a p', String b s' => if Ascii.eqb a b then strip_prefix p' s' else None
  | String _ _, "" => None
  end.

Definition literal (p : string) (v : json) (s : string) : option (json * string) :=
  match strip_prefix p s with
  | Some rest => Some (v, rest)
  | None => None
  end.

(** The object built from the members of an object text, in the order of
    the text; a repeated key keeps its first place and takes the last
    value.  (Keys that are array indices are enumerated first by an engine;
    a text written from an object has them first already.) *)
Definition object_of_members (members : list (string * json)) : jsobj :=
  fold_left (fun o kv => prop_set o (fst kv) (snd kv)) members [].

Fixpoint parse_value (fuel : nat) (s : string) : option (json * string) :=
  match fuel with
  | 0 => None
  | S fuel' =>
      match skip_ws s with
      | "" => None
      | String c r =>
          if Ascii.eqb c "n" then literal "ull" JNull r
          else if Ascii.eqb c "t" then literal "rue" (JBool true) r
          else if Ascii.eqb c "f" then literal "alse" (JBool false) r
          else if Ascii.eqb c dquote then
            match parse_chars r with
            | Some (t, rest) => Some (JStr t, rest)
            | None => None
            end
          else if Ascii.eqb c "[" then
            match strip_prefix "]" (skip_ws r) with
            | Some rest => Some (JArr [], rest)
            | None =>
                match parse_elements fuel' r with
                | Some (l, rest) => Some (JArr l, rest)
                | None => None
                end
            end
          else if Ascii.eqb c "{" then
            match strip_prefix "}" (skip_ws r) with
            | Some rest => Some (JObj [], rest)
            | None =>
                match parse_members fuel' r with
                | Some (m, rest) => Some (JObj (object_of_members m), rest)
                | None => None
                end
            end
          else parse_number (String c r)
      end
  end
with parse_elements (fuel : nat) (s : string) : option (list json * string) :=
  match fuel with
  | 0 => None
  | S fuel' =>
      match parse_value fuel' s with
      | Some (v, rest) =>
          match skip_ws rest with
          | String c rest' =>
              if Ascii.eqb c "," then
                match parse_elements fuel' rest' with
                | Some (l, rest'') => Some (v :: l, rest'')
                | None => None
                end
              else if Ascii.eqb c "]" then Some ([v], rest')
              else None
          | "" => None
          end
      | None => None
      end
  end
with parse_members (fuel : nat) (s : string) : option (list (string * json) * string) :=
  match fuel with
  | 0 => None
  | S fuel' =>
      match strip_prefix (String dquote "") (skip_ws s) with
      | Some r =>
          match parse_chars r with
          | Some (k, rest) =>
              match strip_prefix ":" (skip_ws rest) with
              | Some rest1 =>
                  match parse_value fuel' rest1 with
                  | Some (v, rest2) =>
                      match skip_ws rest2 with
                      | String c rest3 =>
                          if Ascii.eqb c "," then
                            match parse_members fuel' rest3 with
                            | Some (m, rest4) => Some ((k, v) :: m, rest4)
                            | None => None
                            end
                          else if Ascii.eqb c "}" then Some ([(k, v)], rest3)
                          else None
                      | "" => None
                      end
                  | None => None
                  end
              | None => None
              end
          | None => None
          end
      | None => None
      end
  end.

(** The whole text is one value, with white space around it.  Every call of
    the parser consumes a character, so twice the length of the text is
    fuel enough. *)
Definition JSON_parse_model (s : string) : string + json :=
  match parse_value (2 * String.length s + 2) s with
  | Some (v, rest) =>
      if String.eqb (skip_ws rest) "" then inr v
      else inl "Unexpected non-whitespace character after JSON"
  | None =>
      if String.eqb (skip_ws s) "" then inl "Unexpected end of JSON input"
      else inl "Unexpected token in JSON"
  end.

(** ** Notions the properties are stated with *)

(** The text inside the double quotes of a build instruction, read back:
    a backslash is dropped and the character after it is taken as it is. *)
Fixpoint unescape (s : string) : string :=
  match s with
  | "" => ""
  | String c r =>
      if Ascii.eqb c backslash then
        match r with
        | "" => ""
        | String d r' => String d (unescape r')
        end
      else String c (unescape r)
  end.

(** The same, as the reader of build instructions does it: a backslash in
    front of a line break continues the line and goes away together with
    the line break. *)
Fixpoint unescape_joined (s : string) : string :=
  match s with
  | "" => ""
  | String c r =>
      if Ascii.eqb c backslash then
        match r with
        | "" => ""
        | String d r' =>
            if Ascii.eqb d newline then unescape_joined r'
            else String d (unescape_joined r')
        end
      else String c (unescape_joined r)
  end.

(** What is left of the continuation in front of an entry: the space and
    the line break, or the space alone. *)
Definition continuation_kept : string := String " " (String newline "").
Definition continuation_joined : string := " ".

(** Insert-before, character by character: a backslash in front of every
    character of the class, every character kept. *)
Fixpoint insert_before (s : string) : string :=
  match s with
  | "" => ""
  | String c s' =>
      if lookahead c then String backslash (String c (insert_before s'))
      else String c (insert_before s')
  end.

(** A text in which every character of the class stands behind a backslash
    of its own, and no backslash stands elsewhere. *)
Fixpoint escaped (s : string) : bool :=
  match s with
  | "" => true
  | String c r =>
      if Ascii.eqb c backslash then
        match r with
        | "" => false
        | String d r' => lookahead d && escaped r'
        end
      else negb (lookahead c) && escaped r
  end.

(** The number of characters of the class in a text. *)
Fixpoint count_lookahead (s : string) : nat :=
  match s with
  | "" => 0
  | String c s' => (if lookahead c then 1 else 0) + count_lookahead s'
  end.

Fixpoint distinct (keys : list string) : bool :=
  match keys with
  | [] => true
  | k :: rest => negb (existsb (String.eqb k) rest) && distinct rest
  end.

(** Values that [JSON.stringify] writes in full: numbers are safe integers,
    the keys of an object are pairwise distinct. *)
Fixpoint well_formed (v : json) : bool :=
  match v with
  | JNull | JBool _ | JStr _ => true
  | JNum z => safe_integer z
  | JArr l => forallb well_formed l
  | JObj m =>
      distinct (map fst m)
      && forallb (fun kv => match kv with (_, w) => well_formed w end) m
  end.

(** A well-formed metadata entry is a well-formed object. *)
Definition well_formed_entry (v : json) : bool :=
  match v with
  | JObj _ => well_formed v
  | _ => false
  end.

Fixpoint all_chars (p : ascii -> bool) (s : string) : bool :=
  match s with
  | "" => true
  | String c s' => p c && all_chars p s'
  end.

(** The characters a number text starts with: a digit or the minus sign. *)
Definition is_number_start (c : ascii) : bool :=
  let n := N_of_ascii c in
  ((48 <=? n) && (n <=? 57))%N || Ascii.eqb c "-".

(** A text that may follow a value: it does not go on as a number. *)
Definition follows (rest : string) : bool :=
  match rest with
  | "" => true
  | String c _ => negb (is_number_char c)
  end.

(** Fuel that parses a value, see [parse_value_stringify]. *)
Fixpoint size (v : json) : nat :=
  match v with
  | JArr l => S (fold_right (fun e n => size e + 2 + n) 0 l)
  | JObj m => S (fold_right (fun kv n => match kv with (_, w) => size w + 2 + n end) 0 m)
  | _ => 1
  end.

(** The optional inspected base image of a Dockerfile: none when the
    Dockerfile names no base image, the details that the inspection of the
    named image returned otherwise. *)
Definition inspected_base
    (c : Collaborators) (inspect : string -> M ImageDetails)
    (dockerfile : string) (base : option ImageDetails) : Prop :=
  match base with
  | None => findBaseImage c dockerfile = None \/ findBaseImage c dockerfile = Some ""
  | Some details =>
      exists name t,
        findBaseImage c dockerfile = Some name
        /\ nonempty name = true
        /\ inspect name = (t, inr details)
  end.

(** The inspection that [getImageBuildInfoFromDockerfile] passes on. *)
Definition inspectCall (c : Collaborators) (imageName : string) : M ImageDetails :=
  call (InspectImage imageName) (inspectDockerImage c imageName).

(** The sums of sizes that bound the fuel for the elements of an array and
    for the members of an object. *)
Definition sizes (l : list json) : nat :=
  fold_right (fun e n => size e + 2 + n) 0 l.

Definition member_sizes (m : list (string * json)) : nat :=
  fold_right (fun kv n => match kv with (_, w) => size w + 2 + n end) 0 m.

(** The text of a member of an object. *)
Definition member_text (kv : string * json) : string :=
  match kv with
  | (k, w) => QuoteJSONString k ++ ":" ++ JSON_stringify w
  end.

(** A value whose serialization is parsed back to it, in front of any text
    that may follow a value and with any fuel above its size. *)
Definition parses_back (v : json) : Prop :=
  forall fuel rest,
    size v < fuel ->
    follows rest = true ->
    parse_value fuel (JSON_stringify v ++ rest) = Some (v, rest).

(** Induction on values, with the property on every element of an array and
    on every member of an object. *)
Definition json_ind (P : json -> Prop)
    (Hnull : P JNull) (Hbool : forall b, P (JBool b))
    (Hnum : forall z, P (JNum z)) (Hstr : forall s, P (JStr s))
    (Harr : forall l, Forall P l -> P (JArr l))
    (Hobj : forall m, Forall (fun kv => P (snd kv)) m -> P (JObj m))
  : forall v, P v :=
  fix induction_on (v : json) : P v :=
    match v with
    | JNull => Hnull
    | JBool b => Hbool b
    | JNum z => Hnum z
    | JStr s => Hstr s
    | JArr l =>
        Harr l
          ((fix on_elements (l : list json) : Forall P l :=
              match l with
              | [] => Forall_nil P
              | e :: l' => Forall_cons e (induction_on e) (on_elements l')
              end) l)
    | JObj m =>
        Hobj m
          ((fix on_members (m : list (string * json))
              : Forall (fun kv => P (snd kv)) m :=
              match m with
              | [] => Forall_nil _
              | kv :: m' =>
                  Forall_cons kv
                    (match kv as kv0 return P (snd kv0) with
                     | (_, w) => induction_on w
                     end)
                    (on_members m')
              end) m)
    end.

(** ** A sample environment

    Stand-ins for the collaborators, on a few Dockerfiles and images. *)

Definition lines (l : list string) : string := String.concat (String newline "") l.

Definition dockerfileAliceOnBob : string := lines ["FROM bob-image"; "USER alice"].
Definition dockerfileOnBob : string := lines ["FROM bob-image"].
Definition dockerfileOnPlain : string := lines ["FROM plain-image"].
Definition dockerfilePath0 : string := "/workspace/.devcontainer/Dockerfile".

Definition bobImage : ImageDetails :=
  {| Config := {| User := "bob"; Labels := None |} |}.

Definition plainImage : ImageDetails :=
  {| Config := {| User := ""; Labels := Some [(imageMetadataLabel, "not json")] |} |}.

Definition emptyLabelImage : ImageDetails :=
  {| Config := {| User := "node"; Labels := Some [(imageMetadataLabel, "")] |} |}.

Definition sampleCollaborators (fileTest : bool -> answer bool) (otherUser : option string)
  : Collaborators :=
  {| JSON_parse := JSON_parse_model;
     findUserStatement := fun dockerfile =>
       if String.eqb dockerfile dockerfileAliceOnBob then Some "alice" else otherUser;
     findBaseImage := fun dockerfile =>
       if String.eqb dockerfile dockerfileAliceOnBob || String.eqb dockerfile dockerfileOnBob
       then Some "bob-image"
       else if String.eqb dockerfile dockerfileOnPlain then Some "plain-image"
       else None;
     inspectDockerImage := fun imageName =>
       if String.eqb imageName "bob-image" then inr bobImage
       else if String.eqb imageName "plain-image" then inr plainImage
       else if String.eqb imageName "empty-label-image" then inr emptyLabelImage
       else inl (CollaboratorError "No such image");
     isDockerFileConfig := key_in "dockerFile";
     getDockerfilePath := fun config =>
       "/workspace/.devcontainer/" ++ string_prop config "dockerFile";
     uriToWSLFsPath := fun uri => uri;
     isFile := fun path => fileTest false;
     readFile := fun path =>
       inl (CollaboratorError ("ENOENT: no such file or directory, open '" ++ path ++ "'"));
     cwd := "/workspace";
     path_join := fun a b => a ++ "/" ++ b;
     path_isAbsolute := fun path => match path with String "/" _ => true | _ => false end;
     path_resolve := fun a b => a ++ "/" ++ b;
     getDockerComposeFilePaths := fun _ => inr [];
     readDockerComposeConfig := fun _ _ => inr {| services := None |};
     getBuildInfoForService := fun _ _ => None |}.

(** An image that carries the given metadata label. *)
Definition imageWithLabel (text : string) : ImageDetails :=
  {| Config := {| User := "";
                  Labels := Some [("version", "1"); (imageMetadataLabel, text)] |} |}.

Definition featureEntry : json :=
  JObj [ ("id", JStr "docker-in-docker");
         ("privileged", JBool true);
         ("mounts", JArr [JObj [ ("source", JStr "dind-var-lib-docker");
                                 ("target", JStr "/var/lib/docker");
                                 ("type", JStr "volume") ]]) ].

Definition configEntry : json :=
  JObj [ ("postCreateCommand", JStr ("echo " ++ String dquote ("$HOME" ++ String dquote "")));
         ("remoteUser", JStr "vscode");
         ("remoteEnv", JObj [ ("PATH", JStr "${containerEnv:PATH}:C:\tools");
                              ("UNSET", JNull) ]);
         ("forwardPorts", JArr [JNum 3000; JStr "db:5432"]);
         ("portsAttributes", JObj [("3000", JObj [("label", JStr (String "009" "app"))])]);
         ("overrideCommand", JBool false) ].

(** An asynchronous host, as [cliHost] is awaited in line 125, and a
    synchronous one. *)
Definition asyncHost : Collaborators := sampleCollaborators Promise None.
Definition syncHost : Collaborators := sampleCollaborators Plain None.

(** The same, with a Dockerfile parser that reports an empty user. *)
Definition emptyUserHost : Collaborators := sampleCollaborators Promise (Some "").

Definition dockerfileConfig : jsobj :=
  [ ("dockerFile", JStr "Dockerfile"); ("remoteUser", JStr "vscode") ].

(** ** Notions for the properties of the projection *)

(** The allow-listed properties that an object has, in the order of the
    allow-list. *)
Definition present_properties (obj : jsobj) (keys : list string) : jsobj :=
  flat_map (fun k => match prop_get obj k with
                     | Some v => [(k, v)]
                     | None => []
                     end) keys.

(** Every key of the list [keys] occurs in [allowed]. *)
Definition all_in (keys allowed : list string) : bool :=
  forallb (fun k => existsb (String.eqb k) allowed) keys.

(** An entry that is an object with pairwise distinct keys, all of them in
    the allow-list. *)
Definition entry_within (allowed : list string) (e : json) : bool :=
  match e with
  | JObj m => distinct (map fst m) && all_in (map fst m) allowed
  | _ => false
  end.

(** An object all of whose values are well-formed. *)
Definition well_formed_source (o : jsobj) : bool :=
  forallb (fun kv => well_formed (snd kv)) o.


(** ** Notions for the properties of the label *)

(** A text that stays inside the double quotes of a build instruction and
    on one continued line: every backslash escapes the character after it,
    and no double quote, dollar sign or line break stands unescaped. *)
Fixpoint stays_quoted (s : string) : bool :=
  match s with
  | "" => true
  | String c r =>
      if Ascii.eqb c backslash then
        match r with
        | "" => false
        | String _ r' => stays_quoted r'
        end
      else
        negb (Ascii.eqb c dquote) && negb (Ascii.eqb c "$")
        && negb (Ascii.eqb c newline) && stays_quoted r
  end.

Definition no_line_break (c : ascii) : bool := negb (Ascii.eqb c newline).


(** ** Notions for the properties of the resolver *)

(** The place of a call in the order in which a resolution makes its
    calls. *)
Definition rank (e : event) : nat :=
  match e with
  | IsFile _ => 0
  | ComposeFilePaths => 1
  | ReadComposeConfig _ _ => 2
  | ReadFile _ => 3
  | InspectImage _ => 4
  | JsonParse _ => 5
  | OutputWrite _ => 6
  end.

(** A trace whose calls have strictly increasing ranks, all of them at
    least [n]: the calls come in the order of their ranks and no kind of
    call is made twice. *)
Fixpoint ordered_from (n : nat) (t : list event) : bool :=
  match t with
  | [] => true
  | e :: t' => Nat.leb n (rank e) && ordered_from (S (rank e)) t'
  end.

(** Lines 124-125: the [.env] file next to the working directory, and
    the environment file that is passed on to the reader of the Compose
    configuration. *)
Definition cwdEnvFile (c : Collaborators) : string := path_join c (cwd c) ".env".

Definition envFileOf (c : Collaborators) (config : jsobj) : option string :=
  if emptyComposeFileList config && await (isFile c (cwdEnvFile c))
  then Some (cwdEnvFile c)
  else None.

(** The calls of the compose branch up to the reading of the Compose
    configuration. *)
Definition composePrefix (c : Collaborators) (config : jsobj) (composeFiles : list string)
  : list event :=
  ((if emptyComposeFileList config then [IsFile (cwdEnvFile c)] else [])
     ++ [ComposeFilePaths; ReadComposeConfig composeFiles (envFileOf c config)])%list.

(** ** A sample Compose project *)

Definition composeHost : Collaborators :=
  {| JSON_parse := JSON_parse_model;
     findUserStatement := fun dockerfile =>
       if String.eqb dockerfile dockerfileAliceOnBob then Some "alice" else None;
     findBaseImage := fun dockerfile =>
       if String.eqb dockerfile dockerfileAliceOnBob || String.eqb dockerfile dockerfileOnBob
       then Some "bob-image"
       else None;
     inspectDockerImage := fun imageName =>
       if String.eqb imageName "bob-image" then inr bobImage
       else if String.eqb imageName "plain-image" then inr plainImage
       else inl (CollaboratorError "No such image");
     isDockerFileConfig := key_in "dockerFile";
     getDockerfilePath := fun config =>
       "/workspace/.devcontainer/" ++ string_prop config "dockerFile";
     uriToWSLFsPath := fun uri => uri;
     isFile := fun path => Promise (String.eqb path "/workspace/.env");
     readFile := fun path =>
       if String.eqb path "/workspace/app/Dockerfile" || String.eqb path dockerfilePath0
       then inr dockerfileAliceOnBob
       else inl (CollaboratorError ("ENOENT: no such file or directory, open '" ++ path ++ "'"));
     cwd := "/workspace";
     path_join := fun a b => a ++ "/" ++ b;
     path_isAbsolute := fun path => match path with String "/" _ => true | _ => false end;
     path_resolve := fun a b => a ++ "/" ++ b;
     getDockerComposeFilePaths := fun config =>
       match prop_get config "dockerComposeFile" with
       | Some (JStr file) => inr ["/workspace/" ++ file]
       | Some (JArr []) => inr ["/workspace/docker-compose.yml"]
       | _ => inl (CollaboratorError "no Compose file")
       end;
     readDockerComposeConfig := fun _ _ =>
       inr {| services :=
                Some [ ("app", JObj [("build", JObj [("context", JStr "app")])]);
                       ("db", JObj [("image", JStr "plain-image")]) ] |};
     getBuildInfoForService := fun service _ =>
       if key_in "build" service
       then Some {| context := "/workspace/app"; dockerfilePath := "Dockerfile" |}
       else None |}.

Definition composeConfigOf (service : string) : jsobj :=
  [ ("dockerComposeFile", JArr []); ("service", JStr service) ].

Definition imageConfigOf (imageName : string) : jsobj :=
  [ ("image", JStr imageName); ("remoteUser", JStr "vscode") ].


(** What holds of the last part of every resolution, the resolution of a
    Dockerfile text or of an image name: its calls are an inspection, a
    parse and a diagnostic at most, in this order; with the flag disabled
    it neither parses nor writes and returns no entry; the user it returns
    is not empty. *)
Definition tail_facts (flag : bool) (r : M ImageBuildInfo) : Prop :=
  ordered_from 4 (trace r) = true
  /\ (flag = false -> forallb (fun e => Nat.leb (rank e) 4) (trace r) = true)
  /\ (flag = false -> forall info, outcome r = inr info -> metadata info = [])
  /\ (forall info, outcome r = inr info -> user info <> "").

(** The calls before the last part: file and Compose calls only, in
    order. *)
Definition prefix_ok (pre : list event) : bool :=
  ordered_from 0 pre && forallb (fun e => Nat.ltb (rank e) 4) pre.


(** Lines 130-144: what the compose branch does with the Compose
    configuration it has read. *)
Definition resolveService
    (c : Collaborators) (config : jsobj) (experimentalImageMetadata : bool)
    (composeFiles : list string) (composeConfig : ComposeConfig) : M ImageBuildInfo :=
  let serviceTable := match services composeConfig with
                      | Some t => t
                      | None => []
                      end in
  let service := string_prop config "service" in
  match prop_get serviceTable service with
  | None =>
      throw (PlainError ("Service '" ++ service ++
        "' configured in devcontainer.json not found in Docker Compose configuration."))
  | Some composeService =>
      let composeService := match composeService with
                            | JObj m => m
                            | _ => []
                            end in
      match getBuildInfoForService c composeService composeFiles with
      | Some build =>
          let resolvedDockerfilePath :=
            if path_isAbsolute c (dockerfilePath build)
            then dockerfilePath build
            else path_resolve c (context build) (dockerfilePath build) in
          dockerfile <- call (ReadFile resolvedDockerfilePath)
                             (readFile c resolvedDockerfilePath) ;;
          getImageBuildInfoFromDockerfile c dockerfile experimentalImageMetadata
      | None =>
          getImageBuildInfoFromImage c (string_prop composeService "image")
            experimentalImageMetadata
      end
  end.


(** ** The escaping rule in the claim's words *)

(** A backslash put in front of every double quote, backslash and dollar
    sign of a text, every character kept. *)
Fixpoint backslash_inserted (s : string) : string :=
  match s with
  | "" => ""
  | String c s' =>
      if Ascii.eqb c dquote || Ascii.eqb c backslash || Ascii.eqb c "$"
      then String backslash (String c (backslash_inserted s'))
      else String c (backslash_inserted s')
  end.

(** A text made of characters other than the double quote, the backslash
    and the dollar sign, and of pairs of a backslash and one of these
    three. *)
Fixpoint specials_escaped (s : string) : bool :=
  match s with
  | "" => true
  | String c r =>
      if Ascii.eqb c backslash then
        match r with
        | "" => false
        | String d r' =>
            (Ascii.eqb d dquote || Ascii.eqb d backslash || Ascii.eqb d "$")
            && specials_escaped r'
        end
      else
        negb (Ascii.eqb c dquote) && negb (Ascii.eqb c "$") && specials_escaped r
  end.

(** The number of double quotes, backslashes and dollar signs of a text. *)
Fixpoint count_specials (s : string) : nat :=
  match s with
  | "" => 0
  | String c s' =>
      (if Ascii.eqb c dquote || Ascii.eqb c backslash || Ascii.eqb c "$" then 1 else 0)
      + count_specials s'
  end.

(** A key that starts with a digit; the keys that an object enumerates
    before the others, the array indices, are among them. *)
Definition starts_with_digit (key : string) : bool :=
  match key with
  | "" => false
  | String c _ => (Nat.leb 48 (nat_of_ascii c) && Nat.leb (nat_of_ascii c) 57)%bool
  end.

(* ================================================================== *)
(** * Part 2: properties *)
(* ================================================================== *)

(** ** Objects and projection *)

Lemma prop_get_set (o : jsobj) (k k' : string) (v : json) :
  prop_get (prop_set o k v) k' = if String.eqb k k' then Some v else prop_get o k'.
Proof.
  induction o as [|[a w] o IH]; simpl.
  - destruct (String.eqb_spec k k'); reflexivity.
  - destruct (String.eqb_spec a k) as [->|Hak]; simpl.
    + destruct (String.eqb_spec k k'); reflexivity.
    + rewrite IH.
      destruct (String.eqb_spec a k') as [->|Hak'].
      * destruct (String.eqb_spec k k') as [->|]; [contradiction | reflexivity].
      * reflexivity.
Qed.

(** What the [reduce] of [pick] leaves under a key. *)
Lemma pick_fold_get (obj : jsobj) (keys : list string) (res : jsobj) (k : string) :
  prop_get
    (fold_left
       (fun res key =>
          match prop_get obj key with
          | Some v => prop_set res key v
          | None => res
          end) keys res) k
  = if existsb (String.eqb k) keys
    then match prop_get obj k with
         | Some v => Some v
         | None => prop_get res k
         end
    else prop_get res k.
Proof.
  revert res.
  induction keys as [|key keys IH]; intros res; simpl; [reflexivity|].
  rewrite IH.
  destruct (String.eqb_spec k key) as [->|Hk]; simpl.
  - destruct (prop_get obj key) as [v|] eqn:Hget.
    + destruct (existsb (String.eqb key) keys); [reflexivity|].
      now rewrite prop_get_set, String.eqb_refl.
    + destruct (existsb (String.eqb key) keys); reflexivity.
  - destruct (prop_get obj key) as [v|] eqn:Hget; [|reflexivity].
    rewrite prop_get_set.
    destruct (String.eqb_spec key k) as [->|_]; [contradiction|].
    reflexivity.
Qed.

(** A projected entry has exactly the allow-listed properties of its
    source, with their values. *)
Lemma prop_get_pick (obj : jsobj) (keys : list string) (k : string) :
  prop_get (pick obj keys) k
  = if existsb (String.eqb k) keys then prop_get obj k else None.
Proof.
  unfold pick. rewrite pick_fold_get. simpl.
  destruct (existsb (String.eqb k) keys); [|reflexivity].
  destruct (prop_get obj k); reflexivity.
Qed.

Lemma key_in_pick (obj : jsobj) (keys : list string) (k : string) :
  key_in k (pick obj keys) = existsb (String.eqb k) keys && key_in k obj.
Proof.
  unfold key_in. rewrite prop_get_pick.
  destruct (existsb (String.eqb k) keys); reflexivity.
Qed.

Lemma pick_nil (keys : list string) : pick [] keys = [].
Proof.
  unfold pick. induction keys as [|k keys IH]; simpl; [reflexivity | exact IH].
Qed.

(** C6: the entry projected for a compose-backed configuration (one that
    has a [dockerComposeFile] property) is the last entry of the current
    layer, and it has none of the keys [mounts], [containerUser] and
    [containerEnv], whatever the configuration object holds. *)
Theorem compose_entry_excludes_container_keys
    (devContainerConfig : jsobj) (featuresConfig : FeaturesInput) :
  key_in "dockerComposeFile" devContainerConfig = true ->
  exists entry : jsobj,
    getDevcontainerMetadata devContainerConfig featuresConfig
    = (map (fun feature => JObj (pick feature pickFeatureProperties))
           (featuresOf featuresConfig) ++ [JObj entry])%list
    /\ key_in "mounts" entry = false
    /\ key_in "containerUser" entry = false
    /\ key_in "containerEnv" entry = false.
Proof.
  intros Hcompose.
  exists (pick devContainerConfig pickConfigProperties).
  unfold getDevcontainerMetadata. rewrite Hcompose.
  repeat split; rewrite key_in_pick; reflexivity.
Qed.

Lemma compose_entry_excludes_container_keys_witness :
  exists entry : jsobj,
    getDevcontainerMetadata
      [ ("dockerComposeFile", JStr "docker-compose.yml");
        ("service", JStr "app");
        ("mounts", JArr [JStr "source=vol,target=/data,type=volume"]);
        ("containerUser", JStr "node");
        ("containerEnv", JObj [("A", JStr "1")]);
        ("remoteUser", JStr "node") ]
      (FeatureArray [[("id", JStr "git"); ("mounts", JArr [])]])
    = [ JObj [("id", JStr "git"); ("mounts", JArr [])]; JObj entry ]
    /\ key_in "mounts" entry = false
    /\ key_in "containerUser" entry = false
    /\ key_in "containerEnv" entry = false.
Proof.
  apply (compose_entry_excludes_container_keys
           [ ("dockerComposeFile", JStr "docker-compose.yml");
             ("service", JStr "app");
             ("mounts", JArr [JStr "source=vol,target=/data,type=volume"]);
             ("containerUser", JStr "node");
             ("containerEnv", JObj [("A", JStr "1")]);
             ("remoteUser", JStr "node") ]
           (FeatureArray [[("id", JStr "git"); ("mounts", JArr [])]])).
  reflexivity.
Defined.

(** C10: the current layer has one entry per feature, in the order of the
    features, followed by exactly one entry for the configuration, so its
    length is the number of features plus one.  The features are the
    elements of the array when an array is given, and the features of the
    feature sets, set after set, when a features configuration is given.
    The configuration's entry is there also when it has no field at
    all. *)
Theorem current_layer_is_features_then_config (devContainerConfig : jsobj) :
  (forall fs : list jsobj,
      List.length (getDevcontainerMetadata devContainerConfig (FeatureArray fs))
      = List.length fs + 1
      /\ (exists entry : jsobj,
            getDevcontainerMetadata devContainerConfig (FeatureArray fs)
            = (map (fun feature => JObj (pick feature pickFeatureProperties)) fs
                 ++ [JObj entry])%list)
      /\ getDevcontainerMetadata [] (FeatureArray fs)
         = (map (fun feature => JObj (pick feature pickFeatureProperties)) fs
              ++ [JObj []])%list)
  /\ (forall featureSets : list FeatureSet,
        List.length (getDevcontainerMetadata devContainerConfig (FeaturesConfig featureSets))
        = list_sum (map (fun set => List.length (features set)) featureSets) + 1
        /\ (exists entry : jsobj,
              getDevcontainerMetadata devContainerConfig (FeaturesConfig featureSets)
              = (map (fun feature => JObj (pick feature pickFeatureProperties))
                     (List.concat (map features featureSets))
                   ++ [JObj entry])%list)
        /\ getDevcontainerMetadata [] (FeaturesConfig featureSets)
           = (map (fun feature => JObj (pick feature pickFeatureProperties))
                  (List.concat (map features featureSets))
                ++ [JObj []])%list).
Proof.
  split.
  - intros fs. unfold getDevcontainerMetadata. simpl featuresOf. split; [|split].
    + rewrite length_app, length_map. reflexivity.
    + destruct (key_in "dockerComposeFile" devContainerConfig); eexists; reflexivity.
    + simpl. now rewrite pick_nil.
  - intros featureSets. unfold getDevcontainerMetadata. simpl featuresOf.
    split; [|split].
    + rewrite length_app, length_map, length_concat, map_map. reflexivity.
    + destruct (key_in "dockerComposeFile" devContainerConfig); eexists; reflexivity.
    + simpl. now rewrite pick_nil.
Qed.

(** ** Merge *)

(** C7: the sequence that is encoded into the label is the entries of the
    base layer followed by the entries of the current layer: the lengths
    add up, the first entries are the base's and the remaining ones the
    current layer's, each as it was and where it was. *)
Theorem merge_is_concatenation
    (baseImageMetadata : list json) (devContainerConfig : jsobj)
    (featuresConfig : FeaturesInput) :
  let current := getDevcontainerMetadata devContainerConfig featuresConfig in
  let merged := mergedMetadata baseImageMetadata devContainerConfig featuresConfig in
  List.length merged = List.length baseImageMetadata + List.length current
  /\ firstn (List.length baseImageMetadata) merged = baseImageMetadata
  /\ skipn (List.length baseImageMetadata) merged = current
  /\ (forall i, i < List.length baseImageMetadata ->
        nth_error merged i = nth_error baseImageMetadata i)
  /\ (forall i, nth_error merged (List.length baseImageMetadata + i)
                = nth_error current i)
  /\ getDevcontainerMetadataLabel baseImageMetadata devContainerConfig featuresConfig true
     = "LABEL devcontainer.metadata="
         ++ String dquote
              (imageMetadataLabelValue (baseImageMetadata ++ current)%list
                 ++ String dquote "").
Proof.
  cbv zeta. unfold mergedMetadata.
  split; [|split; [|split; [|split; [|split]]]].
  - apply length_app.
  - rewrite firstn_app, Nat.sub_diag, firstn_all. simpl. apply app_nil_r.
  - rewrite skipn_app, Nat.sub_diag, skipn_all. reflexivity.
  - intros i Hi. now apply nth_error_app1.
  - intros i. rewrite nth_error_app2 by lia. f_equal. lia.
  - unfold getDevcontainerMetadataLabel, mergedMetadata. simpl negb. cbv iota.
    destruct (Nat.eqb_spec
                (List.length
                   (baseImageMetadata
                      ++ getDevcontainerMetadata devContainerConfig featuresConfig)%list) 0)
      as [Hlen|_]; [|reflexivity].
    rewrite length_app in Hlen. unfold getDevcontainerMetadata in Hlen.
    rewrite length_app in Hlen. simpl in Hlen. lia.
Qed.

(** ** Decoding and build info *)

Lemma internalGetImageMetadata_disabled (c : Collaborators) (details : ImageDetails) :
  internalGetImageMetadata c details false = ([], inr []).
Proof. reflexivity. Qed.

(** Decoding never throws. *)
Lemma internalGetImageMetadata_returns
    (c : Collaborators) (details : ImageDetails) (flag : bool) :
  exists t entries, internalGetImageMetadata c details flag = (t, inr entries).
Proof.
  unfold internalGetImageMetadata, call, bind, ret.
  destruct flag; simpl; [|eauto].
  destruct (metadataLabelOf details) as [str|]; [|eauto].
  destruct (nonempty str); [|eauto].
  destruct (JSON_parse c str) as [message|obj]; [eauto|].
  destruct (Array_isArray obj); [eauto|].
  destruct (truthy obj && typeof_object obj); eauto.
Qed.

Lemma dockerfile_build_info_without_base
    (c : Collaborators) (inspect : string -> M ImageDetails)
    (dockerfile : string) (flag : bool) :
  inspected_base c inspect dockerfile None ->
  internalGetImageBuildInfoFromDockerfile c inspect dockerfile flag
  = ([], inr {| user := or_else (findUserStatement c dockerfile) "root";
                metadata := [];
                imageDetails := None |}).
Proof.
  unfold internalGetImageBuildInfoFromDockerfile.
  intros [H|H]; rewrite H; reflexivity.
Qed.

Lemma dockerfile_build_info_with_base
    (c : Collaborators) (inspect : string -> M ImageDetails)
    (dockerfile : string) (flag : bool) (details : ImageDetails) :
  inspected_base c inspect dockerfile (Some details) ->
  exists t entries,
    snd (internalGetImageMetadata c details flag) = inr entries
    /\ internalGetImageBuildInfoFromDockerfile c inspect dockerfile flag
       = (t, inr {| user := or_else (findUserStatement c dockerfile)
                              (or_else (Some (User (Config details))) "root");
                    metadata := entries;
                    imageDetails := None |}).
Proof.
  intros (name & t & Hbase & Hname & Hinspect).
  destruct (internalGetImageMetadata_returns c details flag) as (t' & entries & Hmeta).
  unfold internalGetImageBuildInfoFromDockerfile, getImageMetadata.
  rewrite Hbase, Hname. unfold bind at 2. rewrite Hinspect. simpl.
  rewrite Hmeta. simpl. eauto.
Qed.

Lemma or_else_found (u fallback : string) : u <> "" -> or_else (Some u) fallback = u.
Proof.
  intros Hu. unfold or_else.
  destruct (String.eqb_spec u ""); [contradiction | reflexivity].
Qed.

(** C4: the effective user of a Dockerfile build.  Whenever the optional
    base image was inspected, the resolution returns, and its user is the
    [USER] directive of the Dockerfile when one is found; else the user
    configured on the inspected base image when there is one; else
    [root]. *)
Theorem effective_user_precedence
    (c : Collaborators) (inspect : string -> M ImageDetails)
    (dockerfile : string) (flag : bool) (base : option ImageDetails) :
  inspected_base c inspect dockerfile base ->
  exists t info,
    internalGetImageBuildInfoFromDockerfile c inspect dockerfile flag = (t, inr info)
    /\ (forall u, findUserStatement c dockerfile = Some u -> u <> "" -> user info = u)
    /\ (forall details u,
          findUserStatement c dockerfile = None ->
          base = Some details -> User (Config details) = u -> u <> "" ->
          user info = u)
    /\ (findUserStatement c dockerfile = None ->
        base = None \/ (exists details, base = Some details /\ User (Config details) = "") ->
        user info = "root").
Proof.
  intros Hbase. destruct base as [details|].
  - destruct (dockerfile_build_info_with_base c inspect dockerfile flag details Hbase)
      as (t & entries & _ & Hrun).
    exists t; eexists; split; [exact Hrun|]. simpl.
    split; [|split].
    + intros u Hu Hne. rewrite Hu. now apply or_else_found.
    + intros d u Hu Hd Hd' Hne. injection Hd as <-. rewrite Hu, Hd'. simpl.
      change (or_else (Some u) "root" = u). now apply or_else_found.
    + intros Hu [Hnone|(d & Hd & Hempty)]; [discriminate|].
      injection Hd as <-. rewrite Hu, Hempty. reflexivity.
  - rewrite (dockerfile_build_info_without_base c inspect dockerfile flag Hbase).
    do 2 eexists; split; [reflexivity|]. simpl.
    split; [|split].
    + intros u Hu Hne. rewrite Hu. now apply or_else_found.
    + intros d u _ Hd. discriminate.
    + intros Hu _. rewrite Hu. reflexivity.
Qed.

Lemma effective_user_precedence_witness :
  (exists t info,
     getImageBuildInfoFromDockerfile asyncHost dockerfileAliceOnBob true = (t, inr info)
     /\ user info = "alice")
  /\ (exists t info,
        getImageBuildInfoFromDockerfile asyncHost dockerfileOnBob true = (t, inr info)
        /\ user info = "bob")
  /\ (exists t info,
        getImageBuildInfoFromDockerfile asyncHost dockerfileOnPlain true = (t, inr info)
        /\ user info = "root").
Proof.
  split; [|split].
  - destruct (effective_user_precedence asyncHost (inspectCall asyncHost)
                dockerfileAliceOnBob true (Some bobImage))
      as (t & info & Hrun & Hdirective & _).
    + exists "bob-image", [InspectImage "bob-image"]. repeat split; reflexivity.
    + exists t, info. split; [exact Hrun|].
      apply Hdirective; [reflexivity | discriminate].
  - destruct (effective_user_precedence asyncHost (inspectCall asyncHost)
                dockerfileOnBob true (Some bobImage))
      as (t & info & Hrun & _ & Himage & _).
    + exists "bob-image", [InspectImage "bob-image"]. repeat split; reflexivity.
    + exists t, info. split; [exact Hrun|].
      apply (Himage bobImage); [reflexivity | reflexivity | reflexivity | discriminate].
  - destruct (effective_user_precedence asyncHost (inspectCall asyncHost)
                dockerfileOnPlain true (Some plainImage))
      as (t & info & Hrun & _ & _ & Hroot).
    + exists "plain-image", [InspectImage "plain-image"]. repeat split; reflexivity.
    + exists t, info. split; [exact Hrun|].
      apply Hroot; [reflexivity|]. right. exists plainImage. split; reflexivity.
Defined.

Lemma image_build_info
    (c : Collaborators) (imageName : string) (flag : bool) (details : ImageDetails) :
  inspectDockerImage c imageName = inr details ->
  exists t entries,
    getImageBuildInfoFromImage c imageName flag
    = (t, inr {| user := or_else (Some (User (Config details))) "root";
                 metadata := entries;
                 imageDetails := Some details |}).
Proof.
  intros Hinspect.
  destruct (internalGetImageMetadata_returns c details flag) as (t' & entries & Hmeta).
  unfold getImageBuildInfoFromImage, getImageMetadata, call.
  rewrite Hinspect. unfold bind at 1. rewrite Hmeta. simpl. eauto.
Qed.

(** C9: an empty user counts as absent.  An inspected image whose
    configured user is the empty string resolves to [root]; a Dockerfile
    whose [USER] lookup gives the empty string resolves to the user of the
    inspected base image, and to [root] when that one is empty or there is
    no base image. *)
Theorem empty_user_counts_as_absent (c : Collaborators) (flag : bool) :
  (forall imageName details,
      inspectDockerImage c imageName = inr details ->
      User (Config details) = "" ->
      exists t info,
        getImageBuildInfoFromImage c imageName flag = (t, inr info)
        /\ user info = "root")
  /\ (forall inspect dockerfile base,
        inspected_base c inspect dockerfile base ->
        exists t info,
          internalGetImageBuildInfoFromDockerfile c inspect dockerfile flag = (t, inr info)
          /\ (forall details u,
                findUserStatement c dockerfile = Some "" ->
                base = Some details -> User (Config details) = u -> u <> "" ->
                user info = u)
          /\ (findUserStatement c dockerfile = Some ""
              \/ findUserStatement c dockerfile = None ->
              base = None
              \/ (exists details, base = Some details /\ User (Config details) = "") ->
              user info = "root")).
Proof.
  split.
  - intros imageName details Hinspect Hempty.
    destruct (image_build_info c imageName flag details Hinspect) as (t & entries & Hrun).
    exists t; eexists; split; [exact Hrun|]. simpl. now rewrite Hempty.
  - intros inspect dockerfile base Hbase. destruct base as [details|].
    + destruct (dockerfile_build_info_with_base c inspect dockerfile flag details Hbase)
        as (t & entries & _ & Hrun).
      exists t; eexists; split; [exact Hrun|]. simpl. split.
      * intros d u Hu Hd Hd' Hne. injection Hd as <-. rewrite Hu, Hd'. simpl.
        change (or_else (Some u) "root" = u). now apply or_else_found.
      * intros Hu [Hnone|(d & Hd & Hempty)]; [discriminate|].
        injection Hd as <-. rewrite Hempty. destruct Hu as [Hu|Hu]; now rewrite Hu.
    + rewrite (dockerfile_build_info_without_base c inspect dockerfile flag Hbase).
      do 2 eexists; split; [reflexivity|]. simpl. split.
      * intros d u _ Hd. discriminate.
      * intros [Hu|Hu] _; now rewrite Hu.
Qed.

Lemma empty_user_counts_as_absent_witness :
  (exists t info,
     getImageBuildInfoFromImage emptyUserHost "plain-image" true = (t, inr info)
     /\ user info = "root")
  /\ (exists t info,
        getImageBuildInfoFromDockerfile emptyUserHost dockerfileOnBob true = (t, inr info)
        /\ user info = "bob")
  /\ (exists t info,
        getImageBuildInfoFromDockerfile emptyUserHost dockerfileOnPlain true = (t, inr info)
        /\ user info = "root").
Proof.
  destruct (empty_user_counts_as_absent emptyUserHost true) as [Himage Hdockerfile].
  split; [|split].
  - apply (Himage "plain-image" plainImage); reflexivity.
  - destruct (Hdockerfile (inspectCall emptyUserHost) dockerfileOnBob (Some bobImage))
      as (t & info & Hrun & Hfall & _).
    + exists "bob-image", [InspectImage "bob-image"]. repeat split; reflexivity.
    + exists t, info. split; [exact Hrun|].
      apply (Hfall bobImage); [reflexivity | reflexivity | reflexivity | discriminate].
  - destruct (Hdockerfile (inspectCall emptyUserHost) dockerfileOnPlain (Some plainImage))
      as (t & info & Hrun & _ & Hroot).
    + exists "plain-image", [InspectImage "plain-image"]. repeat split; reflexivity.
    + exists t, info. split; [exact Hrun|].
      apply Hroot; [left; reflexivity|]. right. exists plainImage. split; reflexivity.
Defined.

(** ** The flag, and labels that do not decode *)

(** C2, as the code has it: with the flag disabled, the resolution of a
    Dockerfile never parses a label and never writes a diagnostic; it
    either passes on the error of the base image's inspection or returns
    the empty metadata sequence.  The entries derived from the
    configuration are not part of it. *)
Theorem dockerfile_metadata_when_disabled (c : Collaborators) (dockerfile : string) :
  let run := getImageBuildInfoFromDockerfile c dockerfile false in
  (forall text, ~ In (JsonParse text) (trace run))
  /\ (forall message, ~ In (OutputWrite message) (trace run))
  /\ match outcome run with
     | inr info => metadata info = []
     | inl e =>
         exists name,
           findBaseImage c dockerfile = Some name /\ inspectDockerImage c name = inl e
     end.
Proof.
  cbv zeta.
  unfold getImageBuildInfoFromDockerfile, internalGetImageBuildInfoFromDockerfile,
    getImageMetadata, call, trace, outcome.
  destruct (findBaseImage c dockerfile) as [name|] eqn:Hbase; simpl.
  - destruct (nonempty name); simpl.
    + destruct (inspectDockerImage c name) as [e|details] eqn:Hinspect; simpl.
      * repeat split.
        -- intros text [H|[]]; discriminate.
        -- intros message [H|[]]; discriminate.
        -- exists name. split; [reflexivity | exact Hinspect].
      * repeat split.
        -- intros text [H|[]]; discriminate.
        -- intros message [H|[]]; discriminate.
    + repeat split; intros x [].
  - repeat split; intros x [].
Qed.

(** C2, as stated, fails: with the flag disabled the resolution of a
    Dockerfile on an inspected base image returns no entry, whereas the
    sequence derived from the configuration has one. *)
Lemma dockerfile_metadata_is_not_config_derived :
  outcome (getImageBuildInfoFromDockerfile asyncHost dockerfileOnBob false)
  = inr {| user := "bob"; metadata := []; imageDetails := None |}
  /\ getDevcontainerMetadata dockerfileConfig (FeatureArray [])
     = [JObj [("remoteUser", JStr "vscode")]]
  /\ ~ (exists info,
          outcome (getImageBuildInfoFromDockerfile asyncHost dockerfileOnBob false)
          = inr info
          /\ metadata info = getDevcontainerMetadata dockerfileConfig (FeatureArray [])).
Proof.
  split; [reflexivity|]. split; [reflexivity|].
  intros (info & Hrun & Hmeta).
  vm_compute in Hrun. injection Hrun as <-. vm_compute in Hmeta. discriminate.
Qed.

(** C5, for a label that is not empty: when its parse fails, or yields a
    value that is neither an object nor an array, decoding parses once,
    writes exactly one diagnostic and returns the empty sequence; it does
    not throw. *)
Theorem undecodable_label_is_reported
    (c : Collaborators) (details : ImageDetails) (str : string) :
  metadataLabelOf details = Some str ->
  str <> "" ->
  match JSON_parse c str with
  | inl _ => True
  | inr (JArr _) | inr (JObj _) => False
  | inr _ => True
  end ->
  internalGetImageMetadata c details true
  = ([ JsonParse str;
       OutputWrite
         match JSON_parse c str with
         | inl message => "Error parsing image metadata: " ++ error_text message
         | inr _ => "Invalid image metadata: " ++ str
         end ],
     inr []).
Proof.
  intros Hlabel Hne Hparse.
  unfold internalGetImageMetadata. simpl negb. cbv iota.
  rewrite Hlabel.
  unfold nonempty. destruct (String.eqb_spec str "") as [|_]; [contradiction|].
  simpl negb. cbv iota. unfold call, bind, ret.
  destruct (JSON_parse c str) as [message|obj]; [reflexivity|].
  destruct obj; try contradiction; simpl; rewrite ?andb_false_r; reflexivity.
Qed.

Lemma undecodable_label_is_reported_witness :
  internalGetImageMetadata asyncHost plainImage true
  = ([ JsonParse "not json";
       OutputWrite "Error parsing image metadata: Unexpected token in JSON" ],
     inr []).
Proof.
  apply (undecodable_label_is_reported asyncHost plainImage "not json").
  - reflexivity.
  - discriminate.
  - exact I.
Defined.

(** C5, as stated, fails on the empty label: its parse fails, and decoding
    returns the empty sequence without any diagnostic, because an empty
    label counts as no label (line 201). *)
Lemma empty_label_is_not_reported :
  JSON_parse_model "" = inl "Unexpected end of JSON input"
  /\ metadataLabelOf emptyLabelImage = Some ""
  /\ internalGetImageMetadata asyncHost emptyLabelImage true = ([], inr [])
  /\ ~ (exists message,
          In (OutputWrite message)
             (trace (internalGetImageMetadata asyncHost emptyLabelImage true))).
Proof.
  repeat split.
  intros (message & H). exact H.
Qed.

(** ** The Dockerfile that is not there *)

(** When the host answers [isFile] with a promise, the check of line 116 is
    passed whatever the promise resolves to, and the file is read. *)
Lemma dockerfile_check_on_promise
    (c : Collaborators) (config : jsobj) (flag resolved : bool) :
  isDockerFileConfig c config = true ->
  isFile c (uriToWSLFsPath c (getDockerfilePath c config)) = Promise resolved ->
  getImageBuildInfo c config flag
  = bind (call (IsFile (uriToWSLFsPath c (getDockerfilePath c config))) (inr tt))
      (fun _ =>
         bind (call (ReadFile (uriToWSLFsPath c (getDockerfilePath c config)))
                    (readFile c (uriToWSLFsPath c (getDockerfilePath c config))))
           (fun dockerfile => getImageBuildInfoFromDockerfile c dockerfile flag)).
Proof.
  intros Hconfig Hfile. unfold getImageBuildInfo.
  rewrite Hconfig. unfold call at 1. unfold bind at 1. rewrite Hfile. simpl.
  unfold call. unfold bind.
  destruct (readFile c (uriToWSLFsPath c (getDockerfilePath c config))); simpl;
    [reflexivity|].
  destruct (getImageBuildInfoFromDockerfile c s flag). reflexivity.
Qed.

(** When the host answers [isFile] with the boolean itself, a missing
    Dockerfile stops the resolution after that one call, with the
    configuration error that names the path. *)
Lemma dockerfile_check_on_boolean
    (c : Collaborators) (config : jsobj) (flag : bool) :
  isDockerFileConfig c config = true ->
  isFile c (uriToWSLFsPath c (getDockerfilePath c config)) = Plain false ->
  getImageBuildInfo c config flag
  = ( [IsFile (uriToWSLFsPath c (getDockerfilePath c config))],
      inl (ContainerError
             ("Dockerfile (" ++ uriToWSLFsPath c (getDockerfilePath c config)
                ++ ") not found.")) ).
Proof.
  intros Hconfig Hfile. unfold getImageBuildInfo.
  rewrite Hconfig. unfold call, bind. rewrite Hfile. reflexivity.
Qed.

(** C1 on the code: on a host whose [isFile] is asynchronous and resolves
    to false for the computed path, the resolution of a Dockerfile-backed
    configuration goes on to read the file and fails with the error of
    that read, not with the configuration error that names the path. *)
Theorem missing_dockerfile_on_async_host :
  isDockerFileConfig asyncHost dockerfileConfig = true
  /\ uriToWSLFsPath asyncHost (getDockerfilePath asyncHost dockerfileConfig) = dockerfilePath0
  /\ await (isFile asyncHost dockerfilePath0) = false
  /\ getImageBuildInfo asyncHost dockerfileConfig true
     = ( [IsFile dockerfilePath0; ReadFile dockerfilePath0],
         inl (CollaboratorError
                "ENOENT: no such file or directory, open '/workspace/.devcontainer/Dockerfile'") )
  /\ getImageBuildInfo asyncHost dockerfileConfig true
     <> ( [IsFile dockerfilePath0],
          inl (ContainerError "Dockerfile (/workspace/.devcontainer/Dockerfile) not found.") ).
Proof.
  repeat split. discriminate.
Qed.

(** ** Texts *)

Lemma append_assoc (a b c : string) : (a ++ b) ++ c = a ++ (b ++ c).
Proof. induction a as [|x a IH]; simpl; [reflexivity | now rewrite IH]. Qed.

Lemma append_nil_r (a : string) : a ++ "" = a.
Proof. induction a as [|x a IH]; simpl; [reflexivity | now rewrite IH]. Qed.

Lemma length_append (a b : string) :
  String.length (a ++ b) = String.length a + String.length b.
Proof. induction a as [|x a IH]; simpl; [reflexivity | now rewrite IH]. Qed.

Lemma string_from_append (pre t : string) : string_from (String.length pre) (pre ++ t) = t.
Proof. induction pre as [|x pre IH]; simpl; [now destruct t | exact IH]. Qed.

Lemma substring_prefix (mid t : string) : substring 0 (String.length mid) (mid ++ t) = mid.
Proof.
  induction mid as [|x mid IH]; simpl; [now destruct t | now rewrite IH].
Qed.

Lemma substring_middle (pre mid t : string) :
  substring (String.length pre) (String.length mid) (pre ++ mid ++ t) = mid.
Proof.
  induction pre as [|x pre IH]; simpl; [apply substring_prefix | exact IH].
Qed.

(** ** Escaping *)

(** The replacement at the matches of the lookahead, started after [pre]
    with [mid] still to be copied, copies [mid] and puts a backslash in
    front of every character of the class in the rest. *)
Lemma replaceMatches_insert_before (t pre mid : string) :
  replaceMatches (pre ++ mid ++ t) (String.length pre)
    (matchPositions t (String.length pre + String.length mid)) (String backslash "")
  = mid ++ insert_before t.
Proof.
  revert pre mid.
  induction t as [|c t IH]; intros pre mid; simpl.
  - rewrite append_nil_r. apply string_from_append.
  - destruct (lookahead c) eqn:Hc; simpl.
    + replace (String.length pre + String.length mid - String.length pre)
        with (String.length mid) by lia.
      rewrite substring_middle. f_equal.
      specialize (IH (pre ++ mid) (String c "")).
      rewrite length_append in IH. simpl in IH.
      rewrite Nat.add_1_r in IH.
      rewrite append_assoc in IH. simpl in IH. now rewrite IH.
    + specialize (IH pre (mid ++ String c "")).
      rewrite length_append in IH. simpl in IH.
      rewrite Nat.add_1_r, Nat.add_succ_r in IH.
      rewrite !append_assoc in IH. simpl in IH. exact IH.
Qed.

Lemma toLabelString_insert_before (obj : json) :
  toLabelString obj = insert_before (JSON_stringify obj).
Proof.
  unfold toLabelString.
  exact (replaceMatches_insert_before (JSON_stringify obj) "" "").
Qed.

Lemma backslash_lookahead : lookahead backslash = true.
Proof. reflexivity. Qed.

Lemma lookahead_cases (c : ascii) :
  lookahead c = true -> c = dquote \/ c = backslash \/ c = "$"%char.
Proof.
  unfold lookahead. intros H.
  destruct (Ascii.eqb_spec c dquote); [now left|].
  destruct (Ascii.eqb_spec c backslash); [now right; left|].
  destruct (Ascii.eqb_spec c "$"); [now right; right | discriminate].
Qed.

Lemma unescape_insert_before (s : string) : unescape (insert_before s) = s.
Proof.
  induction s as [|c s IH]; simpl; [reflexivity|].
  destruct (lookahead c) eqn:Hc; simpl.
  - now rewrite IH.
  - destruct (Ascii.eqb_spec c backslash) as [->|_].
    + rewrite backslash_lookahead in Hc. discriminate.
    + now rewrite IH.
Qed.

Lemma length_insert_before (s : string) :
  String.length (insert_before s) = String.length s + count_lookahead s.
Proof.
  induction s as [|c s IH]; simpl; [reflexivity|].
  destruct (lookahead c); simpl; rewrite IH; lia.
Qed.

Lemma escaped_insert_before (s : string) : escaped (insert_before s) = true.
Proof.
  induction s as [|c s IH]; simpl; [reflexivity|].
  destruct (lookahead c) eqn:Hc; simpl.
  - now rewrite Hc, IH.
  - destruct (Ascii.eqb_spec c backslash) as [->|_].
    + rewrite backslash_lookahead in Hc. discriminate.
    + now rewrite Hc, IH.
Qed.

Lemma insert_before_backslash_inserted (s : string) :
  insert_before s = backslash_inserted s.
Proof.
  induction s as [|c s IH]; simpl; [reflexivity|].
  unfold lookahead. now rewrite IH.
Qed.

Lemma escaped_specials_escaped (s : string) : escaped s = specials_escaped s.
Proof.
  assert (H : escaped s = specials_escaped s
              /\ forall c, escaped (String c s) = specials_escaped (String c s)).
  { induction s as [|d r [IH1 IH2]].
    - split; [reflexivity|]. intros c.
      change (escaped (String c ""))
        with (if Ascii.eqb c backslash then false else negb (lookahead c) && true).
      change (specials_escaped (String c ""))
        with (if Ascii.eqb c backslash then false
              else negb (Ascii.eqb c dquote) && negb (Ascii.eqb c "$") && true).
      unfold lookahead.
      destruct (Ascii.eqb c backslash); [reflexivity|].
      now rewrite orb_false_r, negb_orb.
    - split; [apply IH2|]. intros c.
      change (escaped (String c (String d r)))
        with (if Ascii.eqb c backslash then lookahead d && escaped r
              else negb (lookahead c) && escaped (String d r)).
      change (specials_escaped (String c (String d r)))
        with (if Ascii.eqb c backslash
              then (Ascii.eqb d dquote || Ascii.eqb d backslash || Ascii.eqb d "$")
                   && specials_escaped r
              else negb (Ascii.eqb c dquote) && negb (Ascii.eqb c "$")
                   && specials_escaped (String d r)).
      rewrite IH1, (IH2 d). unfold lookahead.
      destruct (Ascii.eqb c backslash); [reflexivity|].
      now rewrite orb_false_r, negb_orb. }
  apply H.
Qed.

Lemma count_lookahead_count_specials (s : string) :
  count_lookahead s = count_specials s.
Proof.
  induction s as [|c s IH]; simpl; [reflexivity|].
  unfold lookahead. now rewrite IH.
Qed.

(** C8: the escaping step of [toLabelString] puts one backslash in front of
    every double quote, backslash and dollar sign of the serialized entry
    and keeps every character.  The result is the serialized text with a
    backslash inserted before each of these three characters; it is made
    of characters other than the three and of pairs of a backslash and one
    of the three; it is longer by the number of double quotes, backslashes
    and dollar signs; and deleting the inserted backslashes gives the
    serialized entry back. *)
Theorem toLabelString_inserts_backslashes (obj : json) :
  toLabelString obj = backslash_inserted (JSON_stringify obj)
  /\ specials_escaped (toLabelString obj) = true
  /\ String.length (toLabelString obj)
     = String.length (JSON_stringify obj) + count_specials (JSON_stringify obj)
  /\ unescape (toLabelString obj) = JSON_stringify obj
  /\ (forall pre c post,
        JSON_stringify obj = pre ++ String c post ->
        toLabelString obj
        = backslash_inserted pre
            ++ (if Ascii.eqb c dquote || Ascii.eqb c backslash || Ascii.eqb c "$"
                then String backslash (String c "")
                else String c "")
            ++ backslash_inserted post).
Proof.
  rewrite toLabelString_insert_before.
  split; [apply insert_before_backslash_inserted|].
  split; [rewrite <- escaped_specials_escaped; apply escaped_insert_before|].
  split; [rewrite <- count_lookahead_count_specials; apply length_insert_before|].
  split; [apply unescape_insert_before|].
  intros pre c post Htext. rewrite Htext, insert_before_backslash_inserted.
  clear Htext. induction pre as [|x pre IH]; simpl.
  - destruct (Ascii.eqb c dquote || Ascii.eqb c backslash || Ascii.eqb c "$");
      reflexivity.
  - rewrite IH.
    destruct (Ascii.eqb x dquote || Ascii.eqb x backslash || Ascii.eqb x "$");
      reflexivity.
Qed.

(** ** Parsing what [JSON.stringify] writes *)

(** *** Numbers *)

Lemma uint_text_chars (d : Decimal.uint) :
  all_chars is_number_char (NilEmpty.string_of_uint d) = true.
Proof. induction d; simpl; auto. Qed.

Lemma number_text_chars (z : Z) : all_chars is_number_char (number_text z) = true.
Proof.
  unfold number_text, NilZero.string_of_int, NilZero.string_of_uint.
  destruct (Z.to_int z) as [d|d]; destruct d; simpl; auto using uint_text_chars.
Qed.

Lemma number_text_head (z : Z) :
  exists c t, number_text z = String c t /\ is_number_start c = true.
Proof.
  unfold number_text, NilZero.string_of_int, NilZero.string_of_uint.
  destruct (Z.to_int z) as [d|d]; destruct d; simpl; eauto.
Qed.

Lemma int_of_number_text (z : Z) :
  NilZero.int_of_string (number_text z) = Some (Z.to_int z).
Proof.
  unfold number_text. apply NilZero.isi; destruct z; simpl; intros [=].
  - now apply (DecimalPos.Unsigned.to_uint_nonnil p).
  - now apply (DecimalPos.Unsigned.to_uint_nonnil p).
Qed.

Lemma span_number_token (tok rest : string) :
  all_chars is_number_char tok = true ->
  follows rest = true ->
  span_number (tok ++ rest) = (tok, rest).
Proof.
  intros Htok Hrest.
  induction tok as [|c tok IH]; simpl in *.
  - destruct rest as [|c rest]; [reflexivity|]. simpl in Hrest. simpl.
    now destruct (is_number_char c).
  - apply andb_prop in Htok as [Hc Htok].
    now rewrite Hc, (IH Htok).
Qed.

Lemma uint_text_zero (d : Decimal.uint) :
  NilZero.string_of_uint d = "0" -> d = Decimal.Nil \/ d = Decimal.zero.
Proof.
  destruct d as [|d|d|d|d|d|d|d|d|d|d]; simpl; try discriminate; auto.
  destruct d; simpl; try discriminate. auto.
Qed.

Lemma number_text_not_negative_zero (z : Z) : number_text z <> "-0".
Proof.
  unfold number_text. destruct z as [|p|p]; simpl.
  - discriminate.
  - intros H.
    destruct (Pos.to_uint p) as [|d|d|d|d|d|d|d|d|d|d]; simpl in H; discriminate H.
  - intros H. injection H as H.
    destruct (uint_text_zero _ H) as [Hnil|Hzero].
    + exact (DecimalPos.Unsigned.to_uint_nonnil p Hnil).
    + exact (DecimalPos.Unsigned.to_uint_nonzero p Hzero).
Qed.

Lemma parse_number_text (z : Z) (rest : string) :
  safe_integer z = true ->
  follows rest = true ->
  parse_number (number_text z ++ rest) = Some (JNum z, rest).
Proof.
  intros Hsafe Hrest. unfold parse_number.
  rewrite (span_number_token _ _ (number_text_chars z) Hrest).
  destruct (String.eqb_spec (number_text z) "-0") as [H|_];
    [now apply number_text_not_negative_zero in H|].
  rewrite int_of_number_text, DecimalZ.of_to, String.eqb_refl, Hsafe.
  reflexivity.
Qed.

Lemma parse_value_number_start (fuel : nat) (c : ascii) (r : string) :
  is_number_start c = true ->
  parse_value (S fuel) (String c r) = parse_number (String c r).
Proof.
  intros H.
  destruct c as [[] [] [] [] [] [] [] []]; try discriminate H; reflexivity.
Qed.

(** *** Strings *)

Lemma parse_chars_quote_char (c : ascii) (x : string) :
  parse_chars (quote_char c ++ x) = prepend c (parse_chars x).
Proof.
  destruct c as [[] [] [] [] [] [] [] []]; reflexivity.
Qed.

Lemma parse_chars_quote_body (s rest : string) :
  parse_chars (quote_body s ++ String dquote rest) = Some (s, rest).
Proof.
  induction s as [|c s IH]; simpl; [reflexivity|].
  now rewrite append_assoc, parse_chars_quote_char, IH.
Qed.

Lemma QuoteJSONString_append (s rest : string) :
  QuoteJSONString s ++ rest = String dquote (quote_body s ++ String dquote rest).
Proof.
  unfold QuoteJSONString. simpl. now rewrite append_assoc.
Qed.

(** *** White space and first characters *)

Lemma skip_ws_append (w s : string) :
  all_chars is_ws w = true -> skip_ws (w ++ s) = skip_ws s.
Proof.
  induction w as [|c w IH]; simpl; [reflexivity|].
  intros H. apply andb_prop in H as [Hc Hw]. now rewrite Hc, IH.
Qed.

Lemma skip_ws_head (c : ascii) (s : string) :
  is_ws c = false -> skip_ws (String c s) = String c s.
Proof. intros H. simpl. now rewrite H. Qed.

Lemma parse_value_skips_ws (fuel : nat) (w s : string) :
  all_chars is_ws w = true -> parse_value fuel (w ++ s) = parse_value fuel s.
Proof.
  intros Hw. destruct fuel; simpl; [reflexivity|].
  now rewrite (skip_ws_append w s Hw).
Qed.

Lemma follows_ws (w : string) (c : ascii) (rest : string) :
  all_chars is_ws w = true ->
  is_number_char c = false ->
  follows (w ++ String c rest) = true.
Proof.
  intros Hw Hc. destruct w as [|x w]; simpl.
  - now rewrite Hc.
  - simpl in Hw. apply andb_prop in Hw as [Hx _].
    destruct x as [[] [] [] [] [] [] [] []]; try discriminate Hx; reflexivity.
Qed.

Lemma number_start_is_no_delimiter (c : ascii) :
  is_number_start c = true ->
  is_ws c = false /\ Ascii.eqb "]" c = false /\ Ascii.eqb "}" c = false.
Proof.
  intros H.
  destruct c as [[] [] [] [] [] [] [] []]; try discriminate H; repeat split.
Qed.

(** The serialization of a value starts with a character that is neither
    white space nor a closing bracket. *)
Lemma stringify_head (v : json) :
  exists c t,
    JSON_stringify v = String c t
    /\ is_ws c = false /\ Ascii.eqb "]" c = false /\ Ascii.eqb "}" c = false.
Proof.
  destruct v as [| [] | z | s | l | m]; simpl;
    try (do 2 eexists; repeat split; reflexivity).
  destruct (number_text_head z) as (c & t & -> & Hc).
  exists c, t. split; [reflexivity|]. now apply number_start_is_no_delimiter.
Qed.

Lemma concat_cons2 (sep x y : string) (l : list string) :
  String.concat sep (x :: y :: l) = x ++ sep ++ String.concat sep (y :: l).
Proof. reflexivity. Qed.

Lemma concat_cons_map {A : Type} (f : A -> string) (sep x : string) (y : A) (l : list A) :
  String.concat sep (x :: map f (y :: l)) = x ++ sep ++ String.concat sep (map f (y :: l)).
Proof. reflexivity. Qed.

(** *** Objects built from distinct members *)

Lemma prop_set_fresh (o : jsobj) (k : string) (v : json) :
  existsb (String.eqb k) (map fst o) = false ->
  prop_set o k v = (o ++ [(k, v)])%list.
Proof.
  induction o as [|[a w] o IH]; simpl; [reflexivity|].
  intros H. apply orb_false_elim in H as [Hka Hrest].
  rewrite String.eqb_sym, Hka. now rewrite IH.
Qed.

Lemma distinct_app_fresh (a b : list string) (k : string) :
  distinct (a ++ k :: b)%list = true -> existsb (String.eqb k) a = false.
Proof.
  induction a as [|x a IH]; simpl; [reflexivity|].
  intros H. apply andb_prop in H as [Hx Ha].
  rewrite (IH Ha), orb_false_r.
  apply negb_true_iff in Hx.
  rewrite existsb_app in Hx. apply orb_false_elim in Hx as [_ Hx].
  simpl in Hx. apply orb_false_elim in Hx as [Hx _].
  now rewrite String.eqb_sym.
Qed.

Lemma fold_members_distinct (m acc : list (string * json)) :
  distinct (map fst (acc ++ m)%list) = true ->
  fold_left (fun o kv => prop_set o (fst kv) (snd kv)) m acc = (acc ++ m)%list.
Proof.
  revert acc.
  induction m as [|[k v] m IH]; intros acc H; simpl.
  - now rewrite app_nil_r.
  - rewrite prop_set_fresh.
    + rewrite IH; rewrite <- app_assoc; [reflexivity | exact H].
    + rewrite map_app in H. simpl in H. exact (distinct_app_fresh _ _ _ H).
Qed.

Lemma object_of_distinct_members (m : list (string * json)) :
  distinct (map fst m) = true -> object_of_members m = m.
Proof. intros H. exact (fold_members_distinct m [] H). Qed.

(** *** Arrays and objects *)

Local Arguments QuoteJSONString : simpl never.

(** The elements of an array text, each after the white space [w1] and the
    last one followed by the white space [w2], are parsed back in order. *)
Lemma parse_elements_layout (w1 w2 : string) (l : list json) :
  all_chars is_ws w1 = true ->
  all_chars is_ws w2 = true ->
  Forall parses_back l ->
  l <> [] ->
  forall fuel rest,
    sizes l <= fuel ->
    parse_elements fuel
      (String.concat "," (map (fun e => w1 ++ JSON_stringify e) l)
         ++ w2 ++ String "]" rest)
    = Some (l, rest).
Proof.
  intros Hw1 Hw2 Hall.
  induction Hall as [|v l Hv Hall IH]; intros Hne fuel rest Hfuel; [contradiction|].
  destruct fuel as [|fuel]; [simpl in Hfuel; lia|].
  destruct l as [|v' l'].
  - simpl String.concat. simpl in Hfuel.
    rewrite !append_assoc. simpl parse_elements.
    rewrite (parse_value_skips_ws fuel w1 _ Hw1).
    rewrite (Hv fuel (w2 ++ String "]" rest)); [|lia|now apply follows_ws].
    rewrite (skip_ws_append w2 _ Hw2). reflexivity.
  - simpl map. rewrite concat_cons2.
    change (sizes (v :: v' :: l')) with (size v + 2 + sizes (v' :: l')) in Hfuel.
    rewrite !append_assoc. simpl parse_elements.
    rewrite (parse_value_skips_ws fuel w1 _ Hw1).
    rewrite (Hv fuel); [|lia|reflexivity].
    simpl skip_ws. cbv iota. simpl Ascii.eqb. cbv iota.
    change (String.concat "," ((w1 ++ JSON_stringify v') :: map _ l'))
      with (String.concat "," (map (fun e => w1 ++ JSON_stringify e) (v' :: l'))).
    rewrite IH; [reflexivity | discriminate | lia].
Qed.

Lemma parse_members_step (fuel : nat) (k text : string) :
  parse_members (S fuel) (QuoteJSONString k ++ ":" ++ text)
  = match parse_value fuel text with
    | Some (v, rest2) =>
        match skip_ws rest2 with
        | String c rest3 =>
            if Ascii.eqb c "," then
              match parse_members fuel rest3 with
              | Some (m, rest4) => Some ((k, v) :: m, rest4)
              | None => None
              end
            else if Ascii.eqb c "}" then Some ([(k, v)], rest3)
            else None
        | "" => None
        end
    | None => None
    end.
Proof.
  rewrite QuoteJSONString_append.
  change (parse_members (S fuel) (String dquote ?x))
    with (match parse_chars x with
          | Some (k', rest) =>
              match strip_prefix ":" (skip_ws rest) with
              | Some rest1 =>
                  match parse_value fuel rest1 with
                  | Some (v, rest2) =>
                      match skip_ws rest2 with
                      | String c rest3 =>
                          if Ascii.eqb c "," then
                            match parse_members fuel rest3 with
                            | Some (m, rest4) => Some ((k', v) :: m, rest4)
                            | None => None
                            end
                          else if Ascii.eqb c "}" then Some ([(k', v)], rest3)
                          else None
                      | "" => None
                      end
                  | None => None
                  end
              | None => None
              end
          | None => None
          end).
  rewrite parse_chars_quote_body. reflexivity.
Qed.

Lemma parse_members_compact (m : list (string * json)) :
  Forall (fun kv => parses_back (snd kv)) m ->
  m <> [] ->
  forall fuel rest,
    member_sizes m <= fuel ->
    parse_members fuel (String.concat "," (map member_text m) ++ String "}" rest)
    = Some (m, rest).
Proof.
  intros Hall.
  induction Hall as [|[k w] m Hw Hall IH]; intros Hne fuel rest Hfuel; [contradiction|].
  destruct fuel as [|fuel]; [simpl in Hfuel; lia|].
  simpl in Hw.
  destruct m as [|kv' m'].
  - change (String.concat "," (map member_text [(k, w)]))
      with (QuoteJSONString k ++ ":" ++ JSON_stringify w).
    simpl in Hfuel.
    rewrite !append_assoc, parse_members_step.
    rewrite (Hw fuel (String "}" rest)); [|lia|reflexivity].
    reflexivity.
  - change (map member_text ((k, w) :: kv' :: m'))
      with ((QuoteJSONString k ++ ":" ++ JSON_stringify w)
              :: member_text kv' :: map member_text m').
    rewrite concat_cons2.
    change (member_sizes ((k, w) :: kv' :: m'))
      with (size w + 2 + member_sizes (kv' :: m')) in Hfuel.
    rewrite !append_assoc, parse_members_step.
    rewrite (Hw fuel); [|lia|reflexivity].
    change (String.concat "," (member_text kv' :: map member_text m'))
      with (String.concat "," (map member_text (kv' :: m'))).
    change (skip_ws ("," ++ ?x)) with (String "," x).
    cbv iota. change (Ascii.eqb "," ",") with true. cbv iota.
    rewrite IH; [reflexivity | discriminate | lia].
Qed.

Lemma concat_head (f : json -> string) (v : json) (l : list json) (x : string) :
  exists y, String.concat "," (map f (v :: l)) ++ x = f v ++ y.
Proof.
  destruct l as [|v' l']; simpl map.
  - exists x. reflexivity.
  - rewrite concat_cons2, append_assoc. eauto.
Qed.

Lemma parse_value_array_step (fuel : nat) (r : string) :
  parse_value (S fuel) ("[" ++ r)
  = match strip_prefix "]" (skip_ws r) with
    | Some rest => Some (JArr [], rest)
    | None =>
        match parse_elements fuel r with
        | Some (l, rest) => Some (JArr l, rest)
        | None => None
        end
    end.
Proof. reflexivity. Qed.

Lemma parse_value_object_step (fuel : nat) (r : string) :
  parse_value (S fuel) ("{" ++ r)
  = match strip_prefix "}" (skip_ws r) with
    | Some rest => Some (JObj [], rest)
    | None =>
        match parse_members fuel r with
        | Some (m, rest) => Some (JObj (object_of_members m), rest)
        | None => None
        end
    end.
Proof. reflexivity. Qed.

Lemma strip_prefix_other (a c : ascii) (x : string) :
  Ascii.eqb a c = false -> strip_prefix (String a "") (String c x) = None.
Proof. intros H. simpl. now rewrite H. Qed.

(** Every well-formed value is parsed back from its serialization. *)
Lemma parse_value_stringify (v : json) : well_formed v = true -> parses_back v.
Proof.
  induction v as [| b | z | s | l IH | m IH] using json_ind;
    intros Hwf fuel rest Hfuel Hrest;
    (destruct fuel as [|fuel]; [lia|]).
  - reflexivity.
  - destruct b; reflexivity.
  - destruct (number_text_head z) as (c & t & Htext & Hc).
    simpl JSON_stringify. rewrite Htext. simpl append.
    rewrite (parse_value_number_start fuel c _ Hc).
    change (String c (t ++ rest)) with (String c t ++ rest).
    rewrite <- Htext. now apply parse_number_text.
  - simpl JSON_stringify. rewrite QuoteJSONString_append.
    change (parse_value (S fuel) (String dquote ?x))
      with (match parse_chars x with
            | Some (t, rest) => Some (JStr t, rest)
            | None => None
            end).
    now rewrite parse_chars_quote_body.
  - simpl in Hwf.
    assert (Hall : Forall parses_back l).
    { rewrite forallb_forall in Hwf. rewrite Forall_forall in IH |- *.
      intros e He. apply IH; [exact He | now apply Hwf]. }
    destruct l as [|v l]; [reflexivity|].
    change (JSON_stringify (JArr (v :: l)))
      with ("[" ++ String.concat "," (map JSON_stringify (v :: l)) ++ "]").
    rewrite !append_assoc, parse_value_array_step.
    assert (Hhead :
              strip_prefix "]"
                (skip_ws (String.concat "," (map JSON_stringify (v :: l)) ++ "]" ++ rest))
              = None).
    { destruct (concat_head JSON_stringify v l ("]" ++ rest)) as (y & Hy).
      destruct (stringify_head v) as (c & t & Hv & Hws & Hclose & _).
      rewrite Hy, Hv.
      change (String c t ++ y) with (String c (t ++ y)).
      rewrite (skip_ws_head c _ Hws). now apply strip_prefix_other. }
    rewrite Hhead.
    change (size (JArr (v :: l))) with (S (sizes (v :: l))) in Hfuel.
    assert (Hparse :
              parse_elements fuel
                (String.concat "," (map JSON_stringify (v :: l)) ++ "]" ++ rest)
              = Some (v :: l, rest)).
    { apply (parse_elements_layout "" "" (v :: l) eq_refl eq_refl Hall);
        [discriminate | lia]. }
    now rewrite Hparse.
  - simpl in Hwf. apply andb_prop in Hwf as [Hkeys Hwf].
    assert (Hall : Forall (fun kv => parses_back (snd kv)) m).
    { rewrite forallb_forall in Hwf. rewrite Forall_forall in IH |- *.
      intros [k w] He. apply IH; [exact He|]. exact (Hwf (k, w) He). }
    destruct m as [|[k w] m]; [reflexivity|].
    change (JSON_stringify (JObj ((k, w) :: m)))
      with ("{" ++ String.concat "," (map member_text ((k, w) :: m)) ++ "}").
    rewrite !append_assoc, parse_value_object_step.
    assert (Hhead :
              strip_prefix "}"
                (skip_ws (String.concat "," (map member_text ((k, w) :: m)) ++ "}" ++ rest))
              = None).
    { change (map member_text ((k, w) :: m))
        with ((QuoteJSONString k ++ ":" ++ JSON_stringify w) :: map member_text m).
      destruct (map member_text m) as [|x xs].
      - change (String.concat "," [QuoteJSONString k ++ ":" ++ JSON_stringify w])
          with (QuoteJSONString k ++ ":" ++ JSON_stringify w).
        rewrite !append_assoc, QuoteJSONString_append. reflexivity.
      - rewrite concat_cons2.
        rewrite !append_assoc, QuoteJSONString_append. reflexivity. }
    rewrite Hhead.
    change (size (JObj ((k, w) :: m))) with (S (member_sizes ((k, w) :: m))) in Hfuel.
    assert (Hparse :
              parse_members fuel
                (String.concat "," (map member_text ((k, w) :: m)) ++ "}" ++ rest)
              = Some ((k, w) :: m, rest)).
    { apply (parse_members_compact ((k, w) :: m) Hall); [discriminate | lia]. }
    rewrite Hparse.
    now rewrite (object_of_distinct_members _ Hkeys).
Qed.

(** *** Fuel *)

Lemma sizes_bound (w1 : string) (l : list json) :
  Forall (fun e => size e <= 2 * String.length (JSON_stringify e)) l ->
  sizes l
  <= 2 * String.length (String.concat "," (map (fun e => w1 ++ JSON_stringify e) l)) + 2.
Proof.
  induction 1 as [|v l Hv _ IH]; [simpl; lia|].
  change (sizes (v :: l)) with (size v + 2 + sizes l).
  destruct l as [|v' l'].
  - change (String.concat "," (map (fun e => w1 ++ JSON_stringify e) [v]))
      with (w1 ++ JSON_stringify v).
    rewrite length_append. simpl sizes. lia.
  - change (map (fun e => w1 ++ JSON_stringify e) (v :: v' :: l'))
      with ((w1 ++ JSON_stringify v)
              :: map (fun e => w1 ++ JSON_stringify e) (v' :: l')).
    change (String.concat "," (?x :: map ?f (v' :: l')))
      with (x ++ "," ++ String.concat "," (map f (v' :: l'))).
    rewrite !length_append. simpl String.length at 3. lia.
Qed.

Lemma member_sizes_bound (m : list (string * json)) :
  Forall (fun kv => size (snd kv) <= 2 * String.length (JSON_stringify (snd kv))) m ->
  member_sizes m <= 2 * String.length (String.concat "," (map member_text m)) + 2.
Proof.
  induction 1 as [|[k w] m Hw _ IH]; [simpl; lia|].
  change (member_sizes ((k, w) :: m)) with (size w + 2 + member_sizes m).
  simpl in Hw.
  destruct m as [|kv' m'].
  - change (String.concat "," (map member_text [(k, w)]))
      with (QuoteJSONString k ++ ":" ++ JSON_stringify w).
    rewrite !length_append. simpl member_sizes. lia.
  - change (map member_text ((k, w) :: kv' :: m'))
      with ((QuoteJSONString k ++ ":" ++ JSON_stringify w) :: map member_text (kv' :: m')).
    change (String.concat "," (?x :: map member_text (kv' :: m')))
      with (x ++ "," ++ String.concat "," (map member_text (kv' :: m'))).
    rewrite !length_append. simpl String.length at 4. lia.
Qed.

(** Twice the length of a serialization is fuel enough to parse it. *)
Lemma size_bound (v : json) : size v <= 2 * String.length (JSON_stringify v).
Proof.
  induction v as [| b | z | s | l IH | m IH] using json_ind.
  - simpl. lia.
  - destruct b; simpl; lia.
  - destruct (number_text_head z) as (c & t & Htext & _).
    simpl JSON_stringify. rewrite Htext. simpl. lia.
  - simpl. lia.
  - change (size (JArr l)) with (S (sizes l)).
    change (JSON_stringify (JArr l))
      with ("[" ++ String.concat "," (map JSON_stringify l) ++ "]").
    pose proof (sizes_bound "" l IH) as Hsizes.
    change (map (fun e => "" ++ JSON_stringify e) l) with (map JSON_stringify l) in Hsizes.
    rewrite !length_append. simpl String.length at 1 3. lia.
  - change (size (JObj m)) with (S (member_sizes m)).
    change (JSON_stringify (JObj m))
      with ("{" ++ String.concat "," (map member_text m) ++ "}").
    pose proof (member_sizes_bound m IH) as Hsizes.
    rewrite !length_append. simpl String.length at 1 3. lia.
Qed.

(** *** Whole texts *)

Lemma JSON_parse_model_stringify (v : json) :
  well_formed v = true -> JSON_parse_model (JSON_stringify v) = inr v.
Proof.
  intros Hwf. unfold JSON_parse_model.
  pose proof (parse_value_stringify v Hwf
                (2 * String.length (JSON_stringify v) + 2) "") as Hparse.
  rewrite append_nil_r in Hparse.
  rewrite Hparse; [reflexivity | | reflexivity].
  pose proof (size_bound v). lia.
Qed.

(** An array text with white space in front of every element and in front
    of the closing bracket. *)
Lemma JSON_parse_model_layout (w1 w2 : string) (l : list json) :
  all_chars is_ws w1 = true ->
  all_chars is_ws w2 = true ->
  l <> [] ->
  forallb well_formed l = true ->
  JSON_parse_model
    ("[" ++ String.concat "," (map (fun e => w1 ++ JSON_stringify e) l) ++ w2 ++ "]")
  = inr (JArr l).
Proof.
  intros Hw1 Hw2 Hne Hwf. unfold JSON_parse_model.
  assert (Hall : Forall parses_back l).
  { rewrite forallb_forall in Hwf. rewrite Forall_forall.
    intros e He. apply parse_value_stringify. now apply Hwf. }
  assert (Hbound : Forall (fun e => size e <= 2 * String.length (JSON_stringify e)) l).
  { rewrite Forall_forall. intros e _. apply size_bound. }
  pose proof (sizes_bound w1 l Hbound) as Hsizes.
  set (body := String.concat "," (map (fun e => w1 ++ JSON_stringify e) l)) in *.
  rewrite Nat.add_succ_r, parse_value_array_step.
  assert (Hhead : strip_prefix "]" (skip_ws (body ++ w2 ++ "]")) = None).
  { subst body. destruct l as [|v l]; [contradiction|].
    destruct (concat_head (fun e => w1 ++ JSON_stringify e) v l (w2 ++ "]")) as (y & Hy).
    destruct (stringify_head v) as (c & t & Hv & Hws & Hclose & _).
    rewrite Hy, Hv, append_assoc, (skip_ws_append w1 _ Hw1).
    change (String c t ++ y) with (String c (t ++ y)).
    rewrite (skip_ws_head c _ Hws). now apply strip_prefix_other. }
  rewrite Hhead.
  assert (Hparse :
            parse_elements (2 * String.length ("[" ++ body ++ w2 ++ "]") + 1)
              (body ++ w2 ++ "]")
            = Some (l, "")).
  { apply (parse_elements_layout w1 w2 l Hw1 Hw2 Hall Hne).
    rewrite !length_append. simpl String.length at 1. lia. }
  rewrite Hparse. reflexivity.
Qed.

(** *** Reading the label value back *)

Lemma unescape_insert_before_append (s x : string) :
  unescape (insert_before s ++ x) = s ++ unescape x.
Proof.
  induction s as [|c s IH]; simpl; [reflexivity|].
  destruct (lookahead c) eqn:Hc; simpl.
  - now rewrite IH.
  - destruct (Ascii.eqb_spec c backslash) as [->|_].
    + rewrite backslash_lookahead in Hc. discriminate.
    + now rewrite IH.
Qed.

Lemma unescape_joined_insert_before_append (s x : string) :
  unescape_joined (insert_before s ++ x) = s ++ unescape_joined x.
Proof.
  induction s as [|c s IH]; simpl; [reflexivity|].
  destruct (lookahead c) eqn:Hc; simpl.
  - destruct (lookahead_cases c Hc) as [Heq | [Heq | Heq]]; subst c; simpl;
      now rewrite IH.
  - destruct (Ascii.eqb_spec c backslash) as [->|_].
    + rewrite backslash_lookahead in Hc. discriminate.
    + now rewrite IH.
Qed.

Section ReadingBack.

(** A way [read] of reading escaped text back that turns the continuation
    in front of an entry into the white space [w], keeps the text of the
    entry and keeps a comma. *)
Variable read : string -> string.
Variable w : string.

Hypothesis read_entry :
  forall s x,
    read (String " " (String backslash (String newline (insert_before s ++ x))))
    = w ++ s ++ read x.

Hypothesis read_comma : forall x, read (String "," x) = String "," (read x).

Lemma read_entries (l : list json) (tail : string) :
  l <> [] ->
  read (String.concat ","
          (map (fun feature =>
                  String " " (String backslash (String newline (toLabelString feature))))
               l) ++ tail)
  = String.concat "," (map (fun e => w ++ JSON_stringify e) l) ++ read tail.
Proof.
  induction l as [|v l IH]; intros Hne; [contradiction|].
  destruct l as [|v' l'].
  - simpl map. simpl String.concat. simpl append.
    rewrite toLabelString_insert_before, read_entry.
    now rewrite append_assoc.
  - change (map ?f (v :: v' :: l')) with (f v :: map f (v' :: l')).
    cbv beta. rewrite !concat_cons_map.
    rewrite !append_assoc.
    change (String " " (String backslash (String newline ?a)) ++ ?b)
      with (String " " (String backslash (String newline (a ++ b)))).
    rewrite toLabelString_insert_before, read_entry.
    change (read ("," ++ ?y)) with (read (String "," y)).
    rewrite read_comma.
    rewrite IH by discriminate.
    reflexivity.
Qed.

End ReadingBack.

Lemma unescape_label_value (l : list json) :
  l <> [] ->
  List.length l <> 1 ->
  unescape (imageMetadataLabelValue l)
  = "[" ++ String.concat "," (map (fun e => continuation_kept ++ JSON_stringify e) l)
        ++ continuation_kept ++ "]".
Proof.
  intros Hne Hlen. unfold imageMetadataLabelValue.
  destruct (Nat.eqb_spec (List.length l) 1) as [|_]; [contradiction|].
  simpl negb. cbv iota.
  change (unescape ("[" ++ ?x)) with ("[" ++ unescape x).
  f_equal.
  rewrite (read_entries unescape continuation_kept); [reflexivity | | | exact Hne].
  - intros s x. simpl. now rewrite unescape_insert_before_append.
  - reflexivity.
Qed.

Lemma unescape_joined_label_value (l : list json) :
  l <> [] ->
  List.length l <> 1 ->
  unescape_joined (imageMetadataLabelValue l)
  = "[" ++ String.concat "," (map (fun e => continuation_joined ++ JSON_stringify e) l)
        ++ continuation_joined ++ "]".
Proof.
  intros Hne Hlen. unfold imageMetadataLabelValue.
  destruct (Nat.eqb_spec (List.length l) 1) as [|_]; [contradiction|].
  simpl negb. cbv iota.
  change (unescape_joined ("[" ++ ?x)) with ("[" ++ unescape_joined x).
  f_equal.
  rewrite (read_entries unescape_joined continuation_joined); [reflexivity | | | exact Hne].
  - intros s x. simpl. now rewrite unescape_joined_insert_before_append.
  - reflexivity.
Qed.

(** ** The round trip through the label *)

(** Entering the decoder on an image whose label is a non-empty text. *)
Ltac enter_decoder Hlabel Hne :=
  unfold internalGetImageMetadata; simpl negb; cbv iota;
  rewrite Hlabel; unfold nonempty;
  match goal with
  | |- context [String.eqb ?text ""] =>
      destruct (String.eqb_spec text "") as [|_]; [contradiction|]
  end;
  simpl negb; cbv iota; unfold call, bind, ret.

Lemma decode_array
    (c : Collaborators) (details : ImageDetails) (text : string) (l : list json) :
  metadataLabelOf details = Some text ->
  text <> "" ->
  JSON_parse c text = inr (JArr l) ->
  internalGetImageMetadata c details true = ([JsonParse text], inr l).
Proof.
  intros Hlabel Hne Hparse. enter_decoder Hlabel Hne. now rewrite Hparse.
Qed.

Lemma decode_object
    (c : Collaborators) (details : ImageDetails) (text : string) (m : jsobj) :
  metadataLabelOf details = Some text ->
  text <> "" ->
  JSON_parse c text = inr (JObj m) ->
  internalGetImageMetadata c details true = ([JsonParse text], inr [JObj m]).
Proof.
  intros Hlabel Hne Hparse. enter_decoder Hlabel Hne. now rewrite Hparse.
Qed.

Lemma well_formed_entries (entries : list json) :
  forallb well_formed_entry entries = true -> forallb well_formed entries = true.
Proof.
  rewrite !forallb_forall. intros H e He. specialize (H e He).
  destruct e; try discriminate H. exact H.
Qed.

(** The two ways of reading the label value back give a JSON text of the
    entries: the serialization of the only entry, or an array text with
    white space around the entries. *)
Lemma label_text_parses (entries : list json) (text : string) :
  entries <> [] ->
  forallb well_formed_entry entries = true ->
  text = unescape (imageMetadataLabelValue entries)
  \/ text = unescape_joined (imageMetadataLabelValue entries) ->
  text <> ""
  /\ JSON_parse_model text
     = inr match entries with
           | [entry] => entry
           | _ => JArr entries
           end.
Proof.
  intros Hne Hwf Htext.
  destruct entries as [|e [|e' entries]]; [contradiction| |].
  - assert (Hvalue : text = JSON_stringify e).
    { change (imageMetadataLabelValue [e]) with (toLabelString e) in Htext.
      rewrite toLabelString_insert_before in Htext.
      destruct Htext as [-> | ->].
      - apply unescape_insert_before.
      - rewrite <- (append_nil_r (insert_before _)).
        rewrite unescape_joined_insert_before_append. apply append_nil_r. }
    simpl in Hwf. rewrite andb_true_r in Hwf.
    destruct e as [| | | | |m]; try discriminate Hwf.
    subst text. split; [discriminate|].
    now apply JSON_parse_model_stringify.
  - apply well_formed_entries in Hwf.
    destruct Htext as [-> | ->].
    + rewrite unescape_label_value by (simpl; congruence).
      split; [discriminate|].
      now apply JSON_parse_model_layout.
    + rewrite unescape_joined_label_value by (simpl; congruence).
      split; [discriminate|].
      now apply JSON_parse_model_layout.
Qed.

(** C3: for a non-empty sequence of well-formed entries, take the value
    that the encoding puts between the quotes of the label instruction and
    read it back by deleting the inserted backslashes (whether the line
    break after a continuation backslash stays or goes with it).  Decoding
    an image that carries this text as its label parses once, writes no
    diagnostic and returns the same entries in the same order.  [JSON.parse]
    is taken to agree with its model on this text. *)
Theorem label_round_trip
    (c : Collaborators) (details : ImageDetails) (entries : list json) (text : string) :
  entries <> [] ->
  forallb well_formed_entry entries = true ->
  text = unescape (imageMetadataLabelValue entries)
  \/ text = unescape_joined (imageMetadataLabelValue entries) ->
  metadataLabelOf details = Some text ->
  JSON_parse c text = JSON_parse_model text ->
  internalGetImageMetadata c details true = ([JsonParse text], inr entries).
Proof.
  intros Hne Hwf Htext Hlabel Hmodel.
  destruct (label_text_parses entries text Hne Hwf Htext) as [Hnonempty Hparse].
  rewrite <- Hmodel in Hparse.
  destruct entries as [|e [|e' entries]]; [contradiction| |].
  - simpl in Hwf. destruct e as [| | | | |m]; try discriminate Hwf.
    exact (decode_object c details text m Hlabel Hnonempty Hparse).
  - exact (decode_array c details text _ Hlabel Hnonempty Hparse).
Qed.

Lemma label_round_trip_witness :
  internalGetImageMetadata asyncHost
    (imageWithLabel (unescape (imageMetadataLabelValue [featureEntry; configEntry]))) true
  = ( [JsonParse (unescape (imageMetadataLabelValue [featureEntry; configEntry]))],
      inr [featureEntry; configEntry] ).
Proof.
  apply (label_round_trip asyncHost
           (imageWithLabel (unescape (imageMetadataLabelValue [featureEntry; configEntry])))
           [featureEntry; configEntry]
           (unescape (imageMetadataLabelValue [featureEntry; configEntry]))).
  - discriminate.
  - reflexivity.
  - left. reflexivity.
  - reflexivity.
  - reflexivity.
Defined.

(* ================================================================== *)
(** * Part 3: further properties of the code *)
(* ================================================================== *)

(** ** The projection in full *)

Lemma distinct_app_remove (a b : list string) (k : string) :
  distinct (a ++ k :: b)%list = true -> distinct (a ++ b)%list = true.
Proof.
  induction a as [|x a IH]; simpl.
  - intros H. now apply andb_prop in H as [_ H].
  - intros H. apply andb_prop in H as [Hx Ha].
    rewrite (IH Ha), andb_true_r.
    apply negb_true_iff in Hx. apply negb_true_iff.
    rewrite existsb_app in Hx |- *. apply orb_false_elim in Hx as [H1 H2].
    simpl in H2. apply orb_false_elim in H2 as [_ H2].
    now rewrite H1, H2.
Qed.

(** The [reduce] of [pick] over distinct keys that are new to the
    accumulator adds the present properties after it. *)
Lemma pick_fold_distinct (obj : jsobj) (keys : list string) (res : jsobj) :
  distinct (map fst res ++ keys)%list = true ->
  fold_left
    (fun res key =>
       match prop_get obj key with
       | Some v => prop_set res key v
       | None => res
       end) keys res
  = (res ++ present_properties obj keys)%list.
Proof.
  revert res.
  induction keys as [|key keys IH]; intros res H; simpl.
  - now rewrite app_nil_r.
  - destruct (prop_get obj key) as [v|] eqn:Hget.
    + rewrite (prop_set_fresh res key v (distinct_app_fresh _ _ _ H)).
      rewrite IH.
      * now rewrite <- app_assoc.
      * rewrite map_app. simpl. now rewrite <- app_assoc.
    + apply IH. exact (distinct_app_remove _ _ _ H).
Qed.

Lemma pick_present_properties (obj : jsobj) (keys : list string) :
  distinct keys = true -> pick obj keys = present_properties obj keys.
Proof. intros H. exact (pick_fold_distinct obj keys [] H). Qed.

Lemma present_properties_keys (obj : jsobj) (keys : list string) :
  map fst (present_properties obj keys) = filter (fun k => key_in k obj) keys.
Proof.
  unfold present_properties, key_in.
  induction keys as [|k keys IH]; simpl; [reflexivity|].
  destruct (prop_get obj k); simpl; now rewrite IH.
Qed.

Lemma existsb_filter_false (p : string -> bool) (k : string) (l : list string) :
  existsb (String.eqb k) l = false -> existsb (String.eqb k) (filter p l) = false.
Proof.
  induction l as [|x l IH]; simpl; [reflexivity|].
  intros H. apply orb_false_elim in H as [Hx Hl].
  destruct (p x); simpl; [now rewrite Hx, IH | now apply IH].
Qed.

Lemma distinct_filter (p : string -> bool) (l : list string) :
  distinct l = true -> distinct (filter p l) = true.
Proof.
  induction l as [|x l IH]; simpl; [reflexivity|].
  intros H. apply andb_prop in H as [Hx Hl].
  destruct (p x); simpl; [|now apply IH].
  rewrite (IH Hl), andb_true_r.
  apply negb_true_iff in Hx. apply negb_true_iff.
  now apply existsb_filter_false.
Qed.

Lemma all_in_filter (p : string -> bool) (l : list string) :
  all_in (filter p l) l = true.
Proof.
  unfold all_in. apply forallb_forall. intros k Hk.
  apply filter_In in Hk as [Hk _].
  apply existsb_exists. exists k. split; [exact Hk | apply String.eqb_refl].
Qed.

(** X1: what a projected object holds under a key: the value the source
    has under it when the key is on the allow-list, nothing otherwise
    (also when the allow-list repeats a key). *)
Theorem pick_copies_allowed_properties (obj : jsobj) (keys : list string) (k : string) :
  (In k keys -> prop_get (pick obj keys) k = prop_get obj k)
  /\ (~ In k keys -> prop_get (pick obj keys) k = None).
Proof.
  rewrite prop_get_pick. split; intros H.
  - assert (Hex : existsb (String.eqb k) keys = true).
    { apply existsb_exists. exists k. split; [exact H | apply String.eqb_refl]. }
    now rewrite Hex.
  - destruct (existsb (String.eqb k) keys) eqn:Hex; [|reflexivity].
    apply existsb_exists in Hex as (x & Hx & Heq).
    apply String.eqb_eq in Heq. subst x. contradiction.
Qed.

(** X2: over an allow-list without repetition and without a key that
    starts with a digit (so without the array indices, which an object
    enumerates before its other keys), as the three allow-lists of the code
    are, the projected object lists the properties in the order of the
    allow-list, whatever their order in the source, and leaves out the keys
    the source does not have. *)
Theorem pick_follows_allow_list (obj : jsobj) (keys : list string) :
  distinct keys = true ->
  forallb (fun key => negb (starts_with_digit key)) keys = true ->
  pick obj keys = present_properties obj keys
  /\ map fst (pick obj keys) = filter (fun k => key_in k obj) keys.
Proof.
  intros H _. rewrite (pick_present_properties obj keys H).
  split; [reflexivity | apply present_properties_keys].
Qed.

Lemma pick_follows_allow_list_witness :
  (distinct pickConfigProperties = true
   /\ distinct pickSingleContainerConfigProperties = true
   /\ distinct pickFeatureProperties = true)
  /\ (forallb (fun key => negb (starts_with_digit key)) pickConfigProperties = true
      /\ forallb (fun key => negb (starts_with_digit key))
           pickSingleContainerConfigProperties = true
      /\ forallb (fun key => negb (starts_with_digit key)) pickFeatureProperties = true)
  /\ pick [ ("remoteUser", JStr "vscode"); ("name", JStr "demo");
            ("waitFor", JStr "postCreateCommand"); ("onCreateCommand", JStr "make") ]
          pickConfigProperties
     = [ ("onCreateCommand", JStr "make"); ("waitFor", JStr "postCreateCommand");
         ("remoteUser", JStr "vscode") ]
  /\ map fst
       (pick [ ("remoteUser", JStr "vscode"); ("name", JStr "demo");
               ("waitFor", JStr "postCreateCommand"); ("onCreateCommand", JStr "make") ]
             pickConfigProperties)
     = [ "onCreateCommand"; "waitFor"; "remoteUser" ].
Proof.
  split; [repeat split|]. split; [repeat split|].
  apply (pick_follows_allow_list
           [ ("remoteUser", JStr "vscode"); ("name", JStr "demo");
             ("waitFor", JStr "postCreateCommand"); ("onCreateCommand", JStr "make") ]
           pickConfigProperties);
    reflexivity.
Defined.


Lemma flat_map_agree {A B : Type} (f g : A -> list B) (l : list A) :
  (forall a, In a l -> f a = g a) -> flat_map f l = flat_map g l.
Proof.
  induction l as [|a l IH]; intros H; simpl; [reflexivity|].
  rewrite (H a (or_introl eq_refl)), IH; [reflexivity|].
  intros b Hb. apply H. now right.
Qed.

(** X4: projecting a projected object again, through an allow-list without
    repetition that is part of the first one, gives what the projection of
    the source through the second list gives; in particular a projection
    is idempotent. *)
Theorem pick_of_pick (obj : jsobj) (keys1 keys2 : list string) :
  distinct keys2 = true ->
  all_in keys2 keys1 = true ->
  pick (pick obj keys1) keys2 = pick obj keys2.
Proof.
  intros Hdistinct Hin.
  rewrite !(pick_present_properties _ keys2 Hdistinct).
  unfold present_properties, all_in in *.
  rewrite forallb_forall in Hin.
  apply flat_map_agree. intros k Hk.
  rewrite prop_get_pick, (Hin k Hk). reflexivity.
Qed.

Lemma pick_of_pick_witness :
  pick (pick [ ("mounts", JArr []); ("remoteUser", JStr "vscode"); ("name", JStr "demo") ]
             pickSingleContainerConfigProperties)
       pickConfigProperties
  = pick [ ("mounts", JArr []); ("remoteUser", JStr "vscode"); ("name", JStr "demo") ]
         pickConfigProperties.
Proof.
  apply (pick_of_pick
           [ ("mounts", JArr []); ("remoteUser", JStr "vscode"); ("name", JStr "demo") ]
           pickSingleContainerConfigProperties pickConfigProperties);
    reflexivity.
Defined.

Lemma pick_entry_within (obj : jsobj) (keys : list string) :
  distinct keys = true -> entry_within keys (JObj (pick obj keys)) = true.
Proof.
  intros H. unfold entry_within.
  rewrite (pick_present_properties obj keys H), present_properties_keys.
  now rewrite (distinct_filter _ keys H), all_in_filter.
Qed.

(** X5: every entry of the current layer is an object with pairwise
    distinct keys that stays within its allow-list: the feature allow-list
    for the entries of the features, the compose or the single-container
    allow-list for the entry of the configuration. *)
Theorem entries_stay_within_allow_lists
    (devContainerConfig : jsobj) (featuresConfig : FeaturesInput) :
  exists (featureEntries : list json) (configEntry : json),
    getDevcontainerMetadata devContainerConfig featuresConfig
    = (featureEntries ++ [configEntry])%list
    /\ List.length featureEntries = List.length (featuresOf featuresConfig)
    /\ forallb (entry_within pickFeatureProperties) featureEntries = true
    /\ entry_within
         (if key_in "dockerComposeFile" devContainerConfig
          then pickConfigProperties
          else pickSingleContainerConfigProperties) configEntry = true.
Proof.
  unfold getDevcontainerMetadata.
  do 2 eexists. split; [reflexivity|]. split; [apply length_map|]. split.
  - apply forallb_forall. intros e He.
    apply in_map_iff in He as (feature & <- & _).
    now apply pick_entry_within.
  - destruct (key_in "dockerComposeFile" devContainerConfig);
      now apply pick_entry_within.
Qed.

(** ** The label instruction *)

Lemma all_chars_append (p : ascii -> bool) (a b : string) :
  all_chars p (a ++ b) = all_chars p a && all_chars p b.
Proof.
  induction a as [|c a IH]; simpl; [reflexivity|].
  now rewrite IH, andb_assoc.
Qed.

Lemma all_chars_concat (p : ascii -> bool) (sep : string) (l : list string) :
  all_chars p sep = true ->
  Forall (fun x => all_chars p x = true) l ->
  all_chars p (String.concat sep l) = true.
Proof.
  intros Hsep Hall.
  induction Hall as [|x l Hx Hall IH]; [reflexivity|].
  destruct l as [|y l]; [exact Hx|].
  rewrite concat_cons2, !all_chars_append, Hx, Hsep. exact IH.
Qed.

Lemma all_chars_weaken (p q : ascii -> bool) (s : string) :
  (forall c, p c = true -> q c = true) ->
  all_chars p s = true -> all_chars q s = true.
Proof.
  intros Hpq. induction s as [|c s IH]; simpl; [reflexivity|].
  intros H. apply andb_prop in H as [Hc Hs].
  now rewrite (Hpq c Hc), (IH Hs).
Qed.

Lemma number_char_no_line_break (c : ascii) :
  is_number_char c = true -> no_line_break c = true.
Proof.
  intros H. destruct c as [[] [] [] [] [] [] [] []]; try discriminate H; reflexivity.
Qed.

Lemma quote_char_no_line_break (c : ascii) :
  all_chars no_line_break (quote_char c) = true.
Proof. destruct c as [[] [] [] [] [] [] [] []]; reflexivity. Qed.

Lemma QuoteJSONString_no_line_break (s : string) :
  all_chars no_line_break (QuoteJSONString s) = true.
Proof.
  unfold QuoteJSONString. simpl. rewrite all_chars_append. simpl.
  rewrite andb_true_r.
  induction s as [|c s IH]; simpl; [reflexivity|].
  now rewrite all_chars_append, quote_char_no_line_break, IH.
Qed.

(** The serialization of a value has no line break in it. *)
Lemma stringify_no_line_break (v : json) :
  all_chars no_line_break (JSON_stringify v) = true.
Proof.
  induction v as [| b | z | s | l IH | m IH] using json_ind.
  - reflexivity.
  - destruct b; reflexivity.
  - simpl. apply (all_chars_weaken is_number_char); [|apply number_text_chars].
    apply number_char_no_line_break.
  - simpl. apply QuoteJSONString_no_line_break.
  - change (JSON_stringify (JArr l))
      with ("[" ++ String.concat "," (map JSON_stringify l) ++ "]").
    rewrite !all_chars_append. simpl. rewrite andb_true_r.
    apply all_chars_concat; [reflexivity|].
    apply Forall_map. exact IH.
  - change (JSON_stringify (JObj m))
      with ("{" ++ String.concat "," (map member_text m) ++ "}").
    rewrite !all_chars_append. simpl. rewrite andb_true_r.
    apply all_chars_concat; [reflexivity|].
    apply Forall_map. apply Forall_forall. intros [k w] Hkw.
    rewrite Forall_forall in IH. specialize (IH (k, w) Hkw). simpl in IH.
    unfold member_text. rewrite !all_chars_append, QuoteJSONString_no_line_break, IH.
    reflexivity.
Qed.

Lemma stays_quoted_insert_before (s x : string) :
  all_chars no_line_break s = true ->
  stays_quoted (insert_before s ++ x) = stays_quoted x.
Proof.
  induction s as [|c s IH]; simpl; [reflexivity|].
  intros H. apply andb_prop in H as [Hc Hs].
  destruct (lookahead c) eqn:Hclass; simpl.
  - now apply IH.
  - destruct (Ascii.eqb_spec c backslash) as [->|_].
    + rewrite backslash_lookahead in Hclass. discriminate.
    + unfold lookahead in Hclass.
      apply orb_false_elim in Hclass as [Hclass Hdollar].
      apply orb_false_elim in Hclass as [Hquote _].
      unfold no_line_break in Hc.
      rewrite Hquote, Hdollar, Hc. simpl. now apply IH.
Qed.

Lemma stays_quoted_entries (l : list json) (tail : string) :
  stays_quoted
    (String.concat ","
       (map (fun feature =>
               String " " (String backslash (String newline (toLabelString feature))))
            l) ++ tail)
  = stays_quoted tail.
Proof.
  induction l as [|v l IH]; [reflexivity|].
  destruct l as [|v' l'].
  - change (stays_quoted (toLabelString v ++ tail) = stays_quoted tail).
    rewrite toLabelString_insert_before.
    apply stays_quoted_insert_before, stringify_no_line_break.
  - change (map ?f (v :: v' :: l')) with (f v :: map f (v' :: l')).
    cbv beta. rewrite concat_cons_map, !append_assoc.
    change (String " " (String backslash (String newline ?a)) ++ ?b)
      with (String " " (String backslash (String newline (a ++ b)))).
    rewrite toLabelString_insert_before.
    change (stays_quoted (String " " (String backslash (String newline ?a))))
      with (stays_quoted a).
    rewrite stays_quoted_insert_before by apply stringify_no_line_break.
    exact IH.
Qed.

(** X9: whatever the entries hold, the value of the label stays inside the
    double quotes of the instruction and on one continued line: every
    double quote, dollar sign and line break in it stands behind a
    backslash, and no backslash is left without a character to escape. *)
Theorem label_value_stays_quoted (metadata : list json) :
  stays_quoted (imageMetadataLabelValue metadata) = true.
Proof.
  unfold imageMetadataLabelValue.
  destruct (Nat.eqb (List.length metadata) 1); simpl negb; cbv iota.
  - rewrite toLabelString_insert_before.
    rewrite <- (append_nil_r (insert_before _)).
    rewrite stays_quoted_insert_before by apply stringify_no_line_break.
    reflexivity.
  - change (stays_quoted ("[" ++ ?x)) with (stays_quoted x).
    rewrite stays_quoted_entries. reflexivity.
Qed.

(** X8: the label instruction is the empty string exactly when the flag is
    disabled: with the flag enabled there is always the entry of the
    configuration to write, so the check for an empty sequence in line 226
    never holds. *)
Theorem label_is_empty_iff_disabled
    (baseImageMetadata : list json) (devContainerConfig : jsobj)
    (featuresConfig : FeaturesInput) (experimentalImageMetadata : bool) :
  getDevcontainerMetadataLabel baseImageMetadata devContainerConfig featuresConfig
    experimentalImageMetadata = ""
  <-> experimentalImageMetadata = false.
Proof.
  unfold getDevcontainerMetadataLabel, mergedMetadata, getDevcontainerMetadata.
  destruct experimentalImageMetadata; simpl negb; cbv iota.
  - rewrite !length_app. simpl List.length.
    rewrite Nat.add_1_r, Nat.add_succ_r. simpl. split; discriminate.
  - split; reflexivity.
Qed.

(** X10: two different well-formed values never get the same escaped
    text: the label text of an entry determines the entry. *)
Theorem toLabelString_injective (obj1 obj2 : json) :
  well_formed obj1 = true ->
  well_formed obj2 = true ->
  obj1 <> obj2 ->
  toLabelString obj1 <> toLabelString obj2.
Proof.
  intros Hwf1 Hwf2 Hne H. apply Hne.
  rewrite !toLabelString_insert_before in H.
  apply (f_equal unescape) in H. rewrite !unescape_insert_before in H.
  pose proof (JSON_parse_model_stringify obj1 Hwf1) as H1.
  pose proof (JSON_parse_model_stringify obj2 Hwf2) as H2.
  rewrite H in H1. rewrite H1 in H2. now injection H2.
Qed.

Lemma toLabelString_injective_witness :
  well_formed featureEntry = true
  /\ well_formed configEntry = true
  /\ toLabelString featureEntry <> toLabelString configEntry.
Proof.
  split; [reflexivity|]. split; [reflexivity|].
  apply (toLabelString_injective featureEntry configEntry);
    [reflexivity | reflexivity | discriminate].
Defined.

(** ** What a build writes is what the next build reads *)

Lemma prop_get_well_formed (o : jsobj) (k : string) (v : json) :
  well_formed_source o = true -> prop_get o k = Some v -> well_formed v = true.
Proof.
  unfold well_formed_source.
  induction o as [|[a w] o IH]; simpl; [discriminate|].
  intros H Hget. apply andb_prop in H as [Hw Ho].
  destruct (String.eqb a k); [now injection Hget as <- | now apply IH].
Qed.

Lemma present_properties_well_formed (obj : jsobj) (keys : list string) :
  well_formed_source obj = true ->
  forallb (fun kv => match kv with (_, w) => well_formed w end)
    (present_properties obj keys) = true.
Proof.
  intros Hobj. unfold present_properties.
  induction keys as [|k keys IH]; simpl; [reflexivity|].
  destruct (prop_get obj k) as [v|] eqn:Hget; simpl; [|exact IH].
  now rewrite (prop_get_well_formed obj k v Hobj Hget), IH.
Qed.

(** The projection of an object with well-formed values through an
    allow-list without repetition is a well-formed entry. *)
Lemma pick_well_formed_entry (obj : jsobj) (keys : list string) :
  distinct keys = true ->
  well_formed_source obj = true ->
  well_formed_entry (JObj (pick obj keys)) = true.
Proof.
  intros Hkeys Hobj. simpl.
  rewrite (pick_present_properties obj keys Hkeys), present_properties_keys.
  now rewrite (distinct_filter _ keys Hkeys), present_properties_well_formed.
Qed.

Lemma current_layer_well_formed
    (devContainerConfig : jsobj) (featuresConfig : FeaturesInput) :
  well_formed_source devContainerConfig = true ->
  forallb well_formed_source (featuresOf featuresConfig) = true ->
  forallb well_formed_entry
    (getDevcontainerMetadata devContainerConfig featuresConfig) = true.
Proof.
  intros Hconfig Hfeatures. unfold getDevcontainerMetadata.
  rewrite forallb_app. apply andb_true_intro. split.
  - rewrite forallb_forall in Hfeatures |- *. intros e He.
    apply in_map_iff in He as (feature & <- & Hin).
    apply pick_well_formed_entry; [reflexivity | now apply Hfeatures].
  - simpl forallb. rewrite andb_true_r.
    destruct (key_in "dockerComposeFile" devContainerConfig);
      now apply pick_well_formed_entry.
Qed.

(** Decoding a label that is the read-back value of well-formed entries. *)
Lemma decode_label_text
    (c : Collaborators) (details : ImageDetails) (entries : list json) (text : string) :
  entries <> [] ->
  forallb well_formed_entry entries = true ->
  text = unescape (imageMetadataLabelValue entries)
  \/ text = unescape_joined (imageMetadataLabelValue entries) ->
  metadataLabelOf details = Some text ->
  JSON_parse c text = JSON_parse_model text ->
  internalGetImageMetadata c details true = ([JsonParse text], inr entries).
Proof.
  intros Hne Hwf Htext Hlabel Hmodel.
  destruct (label_text_parses entries text Hne Hwf Htext) as [Hnonempty Hparse].
  rewrite <- Hmodel in Hparse.
  destruct entries as [|e [|e' entries]]; [contradiction| |].
  - simpl in Hwf. destruct e as [| | | | |m]; try discriminate Hwf.
    exact (decode_object c details text m Hlabel Hnonempty Hparse).
  - exact (decode_array c details text _ Hlabel Hnonempty Hparse).
Qed.

Lemma merged_metadata_not_empty
    (baseImageMetadata : list json) (devContainerConfig : jsobj)
    (featuresConfig : FeaturesInput) :
  mergedMetadata baseImageMetadata devContainerConfig featuresConfig <> [].
Proof.
  unfold mergedMetadata, getDevcontainerMetadata. intros H.
  apply (f_equal (@List.length json)) in H.
  rewrite !length_app in H. simpl in H. lia.
Qed.

(** X7: the layers survive a build.  When the entries inherited from the
    base image are well-formed and the configuration and the features hold
    well-formed values, the entries that [getDevcontainerMetadata] projects
    are well-formed too, and decoding the label that
    [getDevcontainerMetadataLabel] writes for them (its value read back from
    the instruction) returns the inherited entries followed by the entries
    of this layer, with one parse and no diagnostic. *)
Theorem built_label_decodes_to_merged_layers
    (c : Collaborators) (details : ImageDetails)
    (baseImageMetadata : list json) (devContainerConfig : jsobj)
    (featuresConfig : FeaturesInput) (text : string) :
  forallb well_formed_entry baseImageMetadata = true ->
  well_formed_source devContainerConfig = true ->
  forallb well_formed_source (featuresOf featuresConfig) = true ->
  text = unescape (imageMetadataLabelValue
                     (mergedMetadata baseImageMetadata devContainerConfig featuresConfig))
  \/ text = unescape_joined
              (imageMetadataLabelValue
                 (mergedMetadata baseImageMetadata devContainerConfig featuresConfig)) ->
  metadataLabelOf details = Some text ->
  JSON_parse c text = JSON_parse_model text ->
  getDevcontainerMetadataLabel baseImageMetadata devContainerConfig featuresConfig true
  = "LABEL devcontainer.metadata="
      ++ String dquote
           (imageMetadataLabelValue
              (mergedMetadata baseImageMetadata devContainerConfig featuresConfig)
              ++ String dquote "")
  /\ forallb well_formed_entry
       (getDevcontainerMetadata devContainerConfig featuresConfig) = true
  /\ internalGetImageMetadata c details true
     = ( [JsonParse text],
         inr (baseImageMetadata
                ++ getDevcontainerMetadata devContainerConfig featuresConfig)%list ).
Proof.
  intros Hbase Hconfig Hfeatures Htext Hlabel Hmodel.
  pose proof (current_layer_well_formed _ _ Hconfig Hfeatures) as Hcurrent.
  pose proof (merged_metadata_not_empty baseImageMetadata devContainerConfig featuresConfig)
    as Hne.
  split; [|split; [exact Hcurrent|]].
  - unfold getDevcontainerMetadataLabel. simpl negb. cbv iota.
    destruct (mergedMetadata baseImageMetadata devContainerConfig featuresConfig)
      as [|e l]; [contradiction | reflexivity].
  - apply (decode_label_text c details
             (mergedMetadata baseImageMetadata devContainerConfig featuresConfig) text);
      try assumption.
    unfold mergedMetadata. rewrite forallb_app. now rewrite Hbase, Hcurrent.
Qed.

Lemma built_label_decodes_to_merged_layers_witness :
  internalGetImageMetadata asyncHost
    (imageWithLabel
       (unescape_joined
          (imageMetadataLabelValue
             (mergedMetadata [featureEntry] dockerfileConfig
                (FeaturesConfig [ {| features := [[("id", JStr "git"); ("init", JBool true)]] |};
                                  {| features := [[("id", JStr "node")]] |} ])))))
    true
  = ( [JsonParse
         (unescape_joined
            (imageMetadataLabelValue
               (mergedMetadata [featureEntry] dockerfileConfig
                  (FeaturesConfig [ {| features := [[("id", JStr "git"); ("init", JBool true)]] |};
                                    {| features := [[("id", JStr "node")]] |} ]))))],
      inr [ featureEntry;
            JObj [("id", JStr "git"); ("init", JBool true)];
            JObj [("id", JStr "node")];
            JObj [("remoteUser", JStr "vscode")] ] ).
Proof.
  apply (built_label_decodes_to_merged_layers asyncHost
           (imageWithLabel
              (unescape_joined
                 (imageMetadataLabelValue
                    (mergedMetadata [featureEntry] dockerfileConfig
                       (FeaturesConfig
                          [ {| features := [[("id", JStr "git"); ("init", JBool true)]] |};
                            {| features := [[("id", JStr "node")]] |} ])))))
           [featureEntry] dockerfileConfig
           (FeaturesConfig [ {| features := [[("id", JStr "git"); ("init", JBool true)]] |};
                             {| features := [[("id", JStr "node")]] |} ])
           (unescape_joined
              (imageMetadataLabelValue
                 (mergedMetadata [featureEntry] dockerfileConfig
                    (FeaturesConfig
                       [ {| features := [[("id", JStr "git"); ("init", JBool true)]] |};
                         {| features := [[("id", JStr "node")]] |} ]))))).
  - reflexivity.
  - reflexivity.
  - reflexivity.
  - right. reflexivity.
  - reflexivity.
  - reflexivity.
Defined.



(** ** The resolver's calls *)

Local Arguments or_else : simpl never.

Lemma bind_value {A B : Type} (t : list event) (a : A) (k : A -> M B) :
  bind (t, inr a) k = ((t ++ trace (k a))%list, outcome (k a)).
Proof. unfold bind, trace, outcome. now destruct (k a). Qed.

Lemma bind_error {A B : Type} (t : list event) (e : jserror) (k : A -> M B) :
  bind (t, inl e) k = (t, inl e).
Proof. reflexivity. Qed.

Lemma or_else_not_empty (a : option string) (fallback : string) :
  fallback <> "" -> or_else a fallback <> "".
Proof.
  intros H. unfold or_else. destruct a as [s|]; [|exact H].
  destruct (String.eqb_spec s ""); [exact H | assumption].
Qed.

(** The three ways decoding can go. *)
Lemma decode_cases (c : Collaborators) (details : ImageDetails) (flag : bool) :
  internalGetImageMetadata c details flag = ([], inr [])
  \/ (exists str v,
        flag = true /\ metadataLabelOf details = Some str /\ str <> ""
        /\ JSON_parse c str = inr v
        /\ internalGetImageMetadata c details flag
           = ([JsonParse str], inr (if Array_isArray v then elements v else [v])))
  \/ (exists str message,
        flag = true /\ metadataLabelOf details = Some str /\ str <> ""
        /\ internalGetImageMetadata c details flag
           = ([JsonParse str; OutputWrite message], inr [])).
Proof.
  unfold internalGetImageMetadata, call, bind, ret.
  destruct flag; simpl negb; cbv iota; [|now left].
  destruct (metadataLabelOf details) as [str|]; [|now left].
  unfold nonempty. destruct (String.eqb_spec str "") as [|Hne]; [now left|].
  simpl negb. cbv iota.
  destruct (JSON_parse c str) as [message|v] eqn:Hparse.
  - right; right. do 2 eexists.
    split; [reflexivity|]. split; [reflexivity|]. split; [exact Hne | reflexivity].
  - destruct (Array_isArray v) eqn:Harr.
    + right; left. exists str, v. rewrite Harr.
      split; [reflexivity|]. split; [reflexivity|]. split; [exact Hne|].
      split; [exact Hparse | reflexivity].
    + destruct (truthy v && typeof_object v).
      * right; left. exists str, v. rewrite Harr.
        split; [reflexivity|]. split; [reflexivity|]. split; [exact Hne|].
        split; [exact Hparse | reflexivity].
      * right; right. do 2 eexists.
        split; [reflexivity|]. split; [reflexivity|]. split; [exact Hne | reflexivity].
Qed.

Lemma decode_disabled (c : Collaborators) (details : ImageDetails) :
  internalGetImageMetadata c details false = ([], inr []).
Proof. reflexivity. Qed.

Lemma decode_ordered (c : Collaborators) (details : ImageDetails) (flag : bool) :
  exists td entries,
    internalGetImageMetadata c details flag = (td, inr entries)
    /\ ordered_from 5 td = true
    /\ (flag = false -> td = [] /\ entries = []).
Proof.
  destruct flag.
  - destruct (decode_cases c details true)
      as [H | [(str & v & _ & _ & _ & _ & H) | (str & message & _ & _ & _ & H)]];
      rewrite H; do 2 eexists; (split; [reflexivity|]); split;
        try reflexivity; discriminate.
  - rewrite decode_disabled. do 2 eexists. now repeat split.
Qed.

Lemma throw_tail_facts (flag : bool) (e : jserror) :
  tail_facts flag (@throw ImageBuildInfo e).
Proof.
  unfold tail_facts, throw, trace, outcome. simpl.
  repeat split; try reflexivity; intros; discriminate.
Qed.

Lemma image_tail_facts (c : Collaborators) (imageName : string) (flag : bool) :
  tail_facts flag (getImageBuildInfoFromImage c imageName flag).
Proof.
  unfold getImageBuildInfoFromImage, getImageMetadata, call.
  destruct (inspectDockerImage c imageName) as [e|details].
  - rewrite bind_error. unfold tail_facts, trace, outcome. simpl.
    repeat split; try reflexivity; intros; discriminate.
  - rewrite bind_value.
    destruct (decode_ordered c details flag) as (td & entries & Hrun & Hordered & Hoff).
    rewrite Hrun, bind_value. unfold tail_facts, trace, outcome, ret. simpl.
    rewrite app_nil_r.
    split; [destruct td as [|[] td]; simpl in *; try discriminate; assumption|].
    split; [intros Hflag; destruct (Hoff Hflag) as [-> _]; reflexivity|].
    split.
    + intros Hflag info Hinfo. destruct (Hoff Hflag) as [_ ->].
      injection Hinfo as <-. reflexivity.
    + intros info Hinfo. injection Hinfo as <-. cbn [user].
      apply or_else_not_empty. discriminate.
Qed.

Lemma dockerfile_tail_facts (c : Collaborators) (dockerfile : string) (flag : bool) :
  tail_facts flag (getImageBuildInfoFromDockerfile c dockerfile flag).
Proof.
  unfold getImageBuildInfoFromDockerfile, internalGetImageBuildInfoFromDockerfile,
    getImageMetadata, call.
  assert (Hnone :
            tail_facts flag
              (bind (@ret (option ImageDetails) None)
                 (fun details =>
                    bind match details with
                         | Some d => internalGetImageMetadata c d flag
                         | None => ret []
                         end
                      (fun metadata =>
                         ret {| user :=
                                  or_else (findUserStatement c dockerfile)
                                    (or_else
                                       (option_map (fun d => User (Config d)) details)
                                       "root");
                                metadata := metadata;
                                imageDetails := None |})))).
  { unfold tail_facts, trace, outcome, ret, bind. simpl.
    repeat split; try reflexivity.
    - intros _ info Hinfo. now injection Hinfo as <-.
    - intros info Hinfo. injection Hinfo as <-. cbn [user].
      apply or_else_not_empty. discriminate. }
  destruct (findBaseImage c dockerfile) as [name|]; [|exact Hnone].
  destruct (nonempty name); [|exact Hnone].
  destruct (inspectDockerImage c name) as [e|details].
  - rewrite !bind_error. unfold tail_facts, trace, outcome. simpl.
    repeat split; try reflexivity; intros; discriminate.
  - rewrite bind_value. unfold ret at 1. simpl trace. simpl outcome.
    rewrite bind_value. cbv iota.
    destruct (decode_ordered c details flag) as (td & entries & Hrun & Hordered & Hoff).
    rewrite Hrun, bind_value. unfold tail_facts, trace, outcome, ret. simpl.
    rewrite app_nil_r.
    split; [destruct td as [|[] td]; simpl in *; try discriminate; assumption|].
    split; [intros Hflag; destruct (Hoff Hflag) as [-> _]; reflexivity|].
    split.
    + intros Hflag info Hinfo. destruct (Hoff Hflag) as [_ ->].
      injection Hinfo as <-. reflexivity.
    + intros info Hinfo. injection Hinfo as <-. cbn [user].
      apply or_else_not_empty. apply or_else_not_empty. discriminate.
Qed.

(** One step of a computation whose first call has been decided. *)
Ltac run_binds :=
  unfold call, ret;
  repeat (first [rewrite bind_value | rewrite bind_error];
          cbn [trace outcome fst snd app]).

(** The compose branch up to the Compose configuration. *)
Lemma compose_branch_paths_error
    (c : Collaborators) (config : jsobj) (flag : bool) (e : jserror) :
  isDockerFileConfig c config = false ->
  key_in "dockerComposeFile" config = true ->
  getDockerComposeFilePaths c config = inl e ->
  getImageBuildInfo c config flag
  = (((if emptyComposeFileList config then [IsFile (cwdEnvFile c)] else [])
        ++ [ComposeFilePaths])%list, inl e).
Proof.
  intros Hdockerfile Hcompose Hpaths.
  unfold getImageBuildInfo, cwdEnvFile. rewrite Hdockerfile, Hcompose. cbv zeta.
  rewrite Hpaths.
  destruct (emptyComposeFileList config); run_binds; reflexivity.
Qed.

Lemma compose_branch_read_error
    (c : Collaborators) (config : jsobj) (flag : bool)
    (composeFiles : list string) (e : jserror) :
  isDockerFileConfig c config = false ->
  key_in "dockerComposeFile" config = true ->
  getDockerComposeFilePaths c config = inr composeFiles ->
  readDockerComposeConfig c composeFiles (envFileOf c config) = inl e ->
  getImageBuildInfo c config flag = (composePrefix c config composeFiles, inl e).
Proof.
  intros Hdockerfile Hcompose Hpaths Hread.
  unfold getImageBuildInfo, composePrefix, envFileOf, cwdEnvFile in *.
  rewrite Hdockerfile, Hcompose. cbv zeta. rewrite Hpaths.
  destruct (emptyComposeFileList config); simpl andb in *; cbv iota in *;
    run_binds; rewrite Hread; run_binds; reflexivity.
Qed.

Lemma compose_branch_service
    (c : Collaborators) (config : jsobj) (flag : bool)
    (composeFiles : list string) (composeConfig : ComposeConfig) :
  isDockerFileConfig c config = false ->
  key_in "dockerComposeFile" config = true ->
  getDockerComposeFilePaths c config = inr composeFiles ->
  readDockerComposeConfig c composeFiles (envFileOf c config) = inr composeConfig ->
  getImageBuildInfo c config flag
  = ((composePrefix c config composeFiles
        ++ trace (resolveService c config flag composeFiles composeConfig))%list,
     outcome (resolveService c config flag composeFiles composeConfig)).
Proof.
  intros Hdockerfile Hcompose Hpaths Hread.
  unfold getImageBuildInfo, composePrefix, envFileOf, cwdEnvFile in *.
  rewrite Hdockerfile, Hcompose. cbv zeta. rewrite Hpaths.
  destruct (emptyComposeFileList config); simpl andb in *; cbv iota in *;
    run_binds; rewrite Hread; run_binds; reflexivity.
Qed.

Lemma ordered_weaken (m n : nat) (t : list event) :
  m <= n -> ordered_from n t = true -> ordered_from m t = true.
Proof.
  intros Hmn. destruct t as [|e t]; simpl; [reflexivity|].
  intros H. apply andb_prop in H as [Hn Ht]. rewrite Ht, andb_true_r.
  apply Nat.leb_le in Hn. apply Nat.leb_le. lia.
Qed.

Lemma ordered_app (n : nat) (pre t : list event) :
  n <= 4 ->
  ordered_from n pre = true ->
  forallb (fun e => Nat.ltb (rank e) 4) pre = true ->
  ordered_from 4 t = true ->
  ordered_from n (pre ++ t)%list = true.
Proof.
  revert n. induction pre as [|e pre IH]; intros n Hn Hpre Hlow Ht; simpl.
  - now apply (ordered_weaken n 4).
  - simpl in Hpre, Hlow.
    apply andb_prop in Hpre as [He Hpre]. apply andb_prop in Hlow as [Hrank Hlow].
    rewrite He. simpl. apply IH; try assumption.
    apply Nat.ltb_lt in Hrank. lia.
Qed.

Lemma ordered_rank (n : nat) (t : list event) (e : event) :
  ordered_from n t = true -> In e t -> n <= rank e.
Proof.
  revert n. induction t as [|x t IH]; intros n H Hin; [contradiction|].
  simpl in H. apply andb_prop in H as [Hx Ht]. apply Nat.leb_le in Hx.
  destruct Hin as [->|Hin]; [exact Hx|].
  specialize (IH _ Ht Hin). lia.
Qed.

Lemma forallb_rank (p : event -> bool) (t : list event) (e : event) :
  forallb p t = true -> In e t -> p e = true.
Proof. intros H Hin. rewrite forallb_forall in H. now apply H. Qed.

Lemma run_eta {A : Type} (m : M A) : m = (([] ++ trace m)%list, outcome m).
Proof. now destruct m. Qed.

(** What the compose branch does with the Compose configuration: a
    failure for the missing service, or the reading of the service's
    Dockerfile and the resolution of its text, or the resolution of the
    service's image. *)
Lemma service_facts
    (c : Collaborators) (config : jsobj) (flag : bool)
    (composeFiles : list string) (composeConfig : ComposeConfig) :
  exists pre sub,
    resolveService c config flag composeFiles composeConfig
    = ((pre ++ trace sub)%list, outcome sub)
    /\ (pre = [] \/ exists path, pre = [ReadFile path])
    /\ tail_facts flag sub.
Proof.
  unfold resolveService. cbv zeta.
  destruct (prop_get _ (string_prop config "service")) as [composeService|].
  - destruct (getBuildInfoForService c _ composeFiles) as [build|].
    + set (path := if path_isAbsolute c (dockerfilePath build)
                   then dockerfilePath build
                   else path_resolve c (context build) (dockerfilePath build)).
      destruct (readFile c path) as [e|dockerfile] eqn:Hread.
      * exists [ReadFile path], (throw e). unfold call. rewrite ?Hread, bind_error.
        split; [reflexivity|]. split; [right; eauto | apply throw_tail_facts].
      * exists [ReadFile path], (getImageBuildInfoFromDockerfile c dockerfile flag).
        unfold call. rewrite ?Hread, bind_value.
        split; [reflexivity|]. split; [right; eauto | apply dockerfile_tail_facts].
    + eexists [], _. split; [apply run_eta|].
      split; [now left | apply image_tail_facts].
  - eexists [], (throw _). split; [reflexivity|].
    split; [now left | apply throw_tail_facts].
Qed.

(** Every resolution is file and Compose calls, in order, followed by a
    failure of its own, by the resolution of a Dockerfile text or by the
    resolution of an image name. *)
Lemma resolution_decomposes (c : Collaborators) (config : jsobj) (flag : bool) :
  exists pre sub,
    getImageBuildInfo c config flag = ((pre ++ trace sub)%list, outcome sub)
    /\ prefix_ok pre = true
    /\ tail_facts flag sub.
Proof.
  destruct (isDockerFileConfig c config) eqn:Hdockerfile.
  - unfold getImageBuildInfo. rewrite Hdockerfile. cbv zeta.
    set (path := uriToWSLFsPath c (getDockerfilePath c config)).
    unfold call at 1. rewrite bind_value.
    destruct (toBoolean (isFile c path)); simpl negb; cbv iota.
    + destruct (readFile c path) as [e|dockerfile] eqn:Hread.
      * exists [IsFile path; ReadFile path], (throw e).
        unfold call. rewrite ?Hread.
        split; [reflexivity|]. split; [reflexivity | apply throw_tail_facts].
      * exists [IsFile path; ReadFile path],
          (getImageBuildInfoFromDockerfile c dockerfile flag).
        unfold call. rewrite ?Hread, bind_value.
        split; [reflexivity|]. split; [reflexivity | apply dockerfile_tail_facts].
    + eexists [IsFile path], (throw _).
      split; [reflexivity|]. split; [reflexivity | apply throw_tail_facts].
  - destruct (key_in "dockerComposeFile" config) eqn:Hcompose.
    + destruct (getDockerComposeFilePaths c config) as [e|composeFiles] eqn:Hpaths.
      * rewrite (compose_branch_paths_error c config flag e Hdockerfile Hcompose Hpaths).
        exists ((if emptyComposeFileList config then [IsFile (cwdEnvFile c)] else [])
                  ++ [ComposeFilePaths])%list, (throw e).
        split; [now rewrite app_nil_r|].
        split; [now destruct (emptyComposeFileList config) | apply throw_tail_facts].
      * destruct (readDockerComposeConfig c composeFiles (envFileOf c config))
          as [e|composeConfig] eqn:Hread.
        -- rewrite (compose_branch_read_error c config flag composeFiles e
                      Hdockerfile Hcompose Hpaths Hread).
           exists (composePrefix c config composeFiles), (throw e).
           split; [now rewrite app_nil_r|].
           split; [|apply throw_tail_facts].
           unfold composePrefix. now destruct (emptyComposeFileList config).
        -- rewrite (compose_branch_service c config flag composeFiles composeConfig
                      Hdockerfile Hcompose Hpaths Hread).
           destruct (service_facts c config flag composeFiles composeConfig)
             as (pre & sub & Hrun & Hpre & Hsub).
           exists (composePrefix c config composeFiles ++ pre)%list, sub.
           rewrite Hrun. cbn [trace outcome fst snd].
           split; [now rewrite app_assoc|].
           split; [|exact Hsub].
           unfold composePrefix.
           destruct Hpre as [->|(path & ->)];
             now destruct (emptyComposeFileList config).
    + unfold getImageBuildInfo. rewrite Hdockerfile, Hcompose.
      eexists [], _. split; [apply run_eta|].
      split; [reflexivity | apply image_tail_facts].
Qed.

(** ** Properties of decoding and of the resolution *)

(** X6: decoding never throws and does little: it parses the label at most
    once and writes at most one diagnostic, after the parse; it returns
    entries only after a parse of the image's own label without a
    diagnostic, and whenever it wrote a diagnostic or did not parse, it
    returns no entry. *)
Theorem decoder_discipline (c : Collaborators) (details : ImageDetails) (flag : bool) :
  exists entries,
    outcome (internalGetImageMetadata c details flag) = inr entries
    /\ List.length (trace (internalGetImageMetadata c details flag)) <= 2
    /\ ordered_from 5 (trace (internalGetImageMetadata c details flag)) = true
    /\ (entries <> [] ->
        exists str,
          flag = true /\ metadataLabelOf details = Some str
          /\ trace (internalGetImageMetadata c details flag) = [JsonParse str]).
Proof.
  destruct (decode_cases c details flag)
    as [H | [(str & v & Hflag & Hlabel & _ & _ & H) | (str & message & _ & _ & _ & H)]];
    rewrite H; unfold trace, outcome; simpl fst; simpl snd.
  - exists []. split; [reflexivity|]. split; [simpl; lia|]. split; [reflexivity|].
    intros Hne. now contradiction Hne.
  - eexists. split; [reflexivity|]. split; [simpl; lia|]. split; [reflexivity|].
    intros _. exists str. now repeat split.
  - exists []. split; [reflexivity|]. split; [simpl; lia|]. split; [reflexivity|].
    intros Hne. now contradiction Hne.
Qed.

(** X11: a compose-backed configuration whose service is not among the
    services of the Compose configuration fails with the plain error that
    names the service, right after the Compose configuration has been
    read: no file is read and no image is inspected. *)
Theorem missing_compose_service
    (c : Collaborators) (config : jsobj) (flag : bool)
    (composeFiles : list string) (composeConfig : ComposeConfig) (service : string) :
  isDockerFileConfig c config = false ->
  key_in "dockerComposeFile" config = true ->
  prop_get config "service" = Some (JStr service) ->
  getDockerComposeFilePaths c config = inr composeFiles ->
  readDockerComposeConfig c composeFiles (envFileOf c config) = inr composeConfig ->
  prop_get match services composeConfig with
           | Some table => table
           | None => []
           end service = None ->
  getImageBuildInfo c config flag
  = ( composePrefix c config composeFiles,
      inl (PlainError
             ("Service '" ++ service ++
              "' configured in devcontainer.json not found in Docker Compose configuration.")) ).
Proof.
  intros Hdockerfile Hcompose Hservice Hpaths Hread Hmissing.
  rewrite (compose_branch_service c config flag composeFiles composeConfig
             Hdockerfile Hcompose Hpaths Hread).
  unfold resolveService, string_prop. rewrite Hservice. cbv zeta.
  rewrite Hmissing. unfold throw, trace, outcome. simpl fst. simpl snd.
  now rewrite app_nil_r.
Qed.

Lemma missing_compose_service_witness :
  getImageBuildInfo composeHost (composeConfigOf "web") true
  = ( [ IsFile "/workspace/.env"; ComposeFilePaths;
        ReadComposeConfig ["/workspace/docker-compose.yml"] (Some "/workspace/.env") ],
      inl (PlainError
             ("Service '" ++ "web" ++
              "' configured in devcontainer.json not found in Docker Compose configuration.")) ).
Proof.
  apply (missing_compose_service composeHost (composeConfigOf "web") true
           ["/workspace/docker-compose.yml"]
           {| services :=
                Some [ ("app", JObj [("build", JObj [("context", JStr "app")])]);
                       ("db", JObj [("image", JStr "plain-image")]) ] |}
           "web");
    reflexivity.
Defined.

Lemma emptyComposeFileList_iff (config : jsobj) :
  emptyComposeFileList config = true
  <-> prop_get config "dockerComposeFile" = Some (JArr []).
Proof.
  unfold emptyComposeFileList.
  destruct (prop_get config "dockerComposeFile") as [[| | | |[|x l]|]|];
    split; intros H; try reflexivity; discriminate H.
Qed.

(** The calls of the compose branch, as far as the [.env] file goes. *)
Lemma compose_trace_shape (c : Collaborators) (config : jsobj) (flag : bool) :
  isDockerFileConfig c config = false ->
  key_in "dockerComposeFile" config = true ->
  exists pre t,
    trace (getImageBuildInfo c config flag) = (pre ++ t)%list
    /\ ordered_from 3 t = true
    /\ (pre = ((if emptyComposeFileList config
                then [IsFile (cwdEnvFile c)] else [])
                 ++ [ComposeFilePaths])%list
        \/ exists composeFiles,
             getDockerComposeFilePaths c config = inr composeFiles
             /\ pre = composePrefix c config composeFiles).
Proof.
  intros Hdockerfile Hcompose.
  destruct (getDockerComposeFilePaths c config) as [e|composeFiles] eqn:Hpaths.
  - rewrite (compose_branch_paths_error c config flag e Hdockerfile Hcompose Hpaths).
    eexists _, []. split; [now rewrite app_nil_r|]. split; [reflexivity | now left].
  - destruct (readDockerComposeConfig c composeFiles (envFileOf c config))
      as [e|composeConfig] eqn:Hread.
    + rewrite (compose_branch_read_error c config flag composeFiles e
                 Hdockerfile Hcompose Hpaths Hread).
      eexists _, []. split; [now rewrite app_nil_r|].
      split; [reflexivity | right; eauto].
    + rewrite (compose_branch_service c config flag composeFiles composeConfig
                 Hdockerfile Hcompose Hpaths Hread).
      destruct (service_facts c config flag composeFiles composeConfig)
        as (pre & sub & Hrun & Hpre & Hsub & _).
      eexists _, _. split; [reflexivity|]. split; [|right; eauto].
      rewrite Hrun. unfold trace at 1. simpl fst.
      destruct Hpre as [->|(path & ->)]; simpl.
      * now apply (ordered_weaken 3 4); [lia|].
      * exact Hsub.
Qed.

(** X12: the [.env] file of the working directory.  In the compose branch
    [isFile] is asked exactly when the [dockerComposeFile] of the
    configuration is the empty array, then first of all and about the
    [.env] file joined to the working directory, and about nothing else.
    The reader of the Compose configuration gets the files that were
    resolved and, as environment file, that [.env] file when the array is
    empty and the awaited answer is true, and none otherwise. *)
Theorem env_file_only_for_empty_file_list
    (c : Collaborators) (config : jsobj) (flag : bool) :
  isDockerFileConfig c config = false ->
  key_in "dockerComposeFile" config = true ->
  (forall path,
      In (IsFile path) (trace (getImageBuildInfo c config flag)) ->
      prop_get config "dockerComposeFile" = Some (JArr [])
      /\ path = path_join c (cwd c) ".env")
  /\ (prop_get config "dockerComposeFile" = Some (JArr []) ->
      exists rest,
        trace (getImageBuildInfo c config flag)
        = IsFile (path_join c (cwd c) ".env") :: rest)
  /\ (forall composeFiles envFile,
        In (ReadComposeConfig composeFiles envFile)
           (trace (getImageBuildInfo c config flag)) ->
        getDockerComposeFilePaths c config = inr composeFiles
        /\ ((envFile = Some (path_join c (cwd c) ".env")
             /\ prop_get config "dockerComposeFile" = Some (JArr [])
             /\ await (isFile c (path_join c (cwd c) ".env")) = true)
            \/ (envFile = None
                /\ (prop_get config "dockerComposeFile" <> Some (JArr [])
                    \/ await (isFile c (path_join c (cwd c) ".env")) = false)))).
Proof.
  intros Hdockerfile Hcompose.
  destruct (compose_trace_shape c config flag Hdockerfile Hcompose)
    as (pre & t & Htrace & Hordered & Hpre).
  pose proof (emptyComposeFileList_iff config) as Hempty.
  rewrite Htrace. split; [|split].
  - intros path Hin. apply in_app_or in Hin as [Hin|Hin].
    + destruct Hpre as [->|(composeFiles & _ & ->)]; unfold composePrefix in Hin;
        destruct (emptyComposeFileList config) eqn:Hlist; simpl in Hin;
        repeat (destruct Hin as [Hin|Hin]; try discriminate Hin; try contradiction);
        injection Hin as <-; (split; [now apply Hempty | reflexivity]).
    + pose proof (ordered_rank 3 t _ Hordered Hin) as Hrank. simpl in Hrank. lia.
  - intros Harray. apply Hempty in Harray.
    destruct Hpre as [->|(composeFiles & _ & ->)]; unfold composePrefix;
      rewrite Harray; eexists; reflexivity.
  - intros composeFiles envFile Hin. apply in_app_or in Hin as [Hin|Hin].
    + assert (Henv : getDockerComposeFilePaths c config = inr composeFiles
                     /\ envFile = envFileOf c config).
      { destruct Hpre as [->|(files & Hpaths & ->)]; unfold composePrefix in Hin;
          destruct (emptyComposeFileList config); simpl in Hin;
          repeat (destruct Hin as [Hin|Hin]; try discriminate Hin; try contradiction);
          injection Hin as <- <-; now split. }
      destruct Henv as [Hpaths ->]. split; [exact Hpaths|].
      unfold envFileOf, cwdEnvFile.
      destruct (emptyComposeFileList config) eqn:Hlist; simpl andb; cbv iota.
      * destruct (await (isFile c (path_join c (cwd c) ".env"))) eqn:Hfile.
        -- left. split; [reflexivity|]. split; [now apply Hempty | reflexivity].
        -- right. split; [reflexivity | now right].
      * right. split; [reflexivity|]. left. intros Harray.
        apply Hempty in Harray. discriminate Harray.
    + pose proof (ordered_rank 3 t _ Hordered Hin) as Hrank. simpl in Hrank. lia.
Qed.

Lemma env_file_only_for_empty_file_list_witness :
  (forall path,
      In (IsFile path) (trace (getImageBuildInfo composeHost (composeConfigOf "db") true)) ->
      prop_get (composeConfigOf "db") "dockerComposeFile" = Some (JArr [])
      /\ path = "/workspace/.env")
  /\ (prop_get (composeConfigOf "db") "dockerComposeFile" = Some (JArr []) ->
      exists rest,
        trace (getImageBuildInfo composeHost (composeConfigOf "db") true)
        = IsFile "/workspace/.env" :: rest)
  /\ (forall composeFiles envFile,
        In (ReadComposeConfig composeFiles envFile)
           (trace (getImageBuildInfo composeHost (composeConfigOf "db") true)) ->
        getDockerComposeFilePaths composeHost (composeConfigOf "db") = inr composeFiles
        /\ ((envFile = Some "/workspace/.env"
             /\ prop_get (composeConfigOf "db") "dockerComposeFile" = Some (JArr [])
             /\ await (isFile composeHost "/workspace/.env") = true)
            \/ (envFile = None
                /\ (prop_get (composeConfigOf "db") "dockerComposeFile" <> Some (JArr [])
                    \/ await (isFile composeHost "/workspace/.env") = false)))).
Proof.
  apply (env_file_only_for_empty_file_list composeHost (composeConfigOf "db") true);
    reflexivity.
Defined.

(** X13: a Dockerfile without a [USER] directive resolves as its base
    image does: the resolution of the Dockerfile text and the resolution of
    the image name make the same calls and either fail with the same error
    or return the same user and the same metadata. *)
Theorem dockerfile_without_user_resolves_as_its_base
    (c : Collaborators) (dockerfile : string) (flag : bool) (name : string) :
  findUserStatement c dockerfile = None \/ findUserStatement c dockerfile = Some "" ->
  findBaseImage c dockerfile = Some name ->
  name <> "" ->
  trace (getImageBuildInfoFromDockerfile c dockerfile flag)
  = trace (getImageBuildInfoFromImage c name flag)
  /\ match outcome (getImageBuildInfoFromDockerfile c dockerfile flag),
           outcome (getImageBuildInfoFromImage c name flag) with
     | inl e, inl e' => e = e'
     | inr info, inr info' => user info = user info' /\ metadata info = metadata info'
     | _, _ => False
     end.
Proof.
  intros Huser Hbase Hname.
  unfold getImageBuildInfoFromDockerfile, internalGetImageBuildInfoFromDockerfile,
    getImageBuildInfoFromImage, getImageMetadata.
  rewrite Hbase. unfold nonempty.
  destruct (String.eqb_spec name "") as [|_]; [contradiction|]. simpl negb. cbv iota.
  destruct (inspectDockerImage c name) as [e|details]; run_binds.
  - now split.
  - destruct (decode_ordered c details flag) as (td & entries & Hrun & _).
    rewrite Hrun. run_binds. split; [reflexivity|]. cbn [user metadata option_map].
    split; [|reflexivity].
    destruct Huser as [-> | ->]; reflexivity.
Qed.

Lemma dockerfile_without_user_resolves_as_its_base_witness :
  trace (getImageBuildInfoFromDockerfile composeHost dockerfileOnBob true)
  = trace (getImageBuildInfoFromImage composeHost "bob-image" true)
  /\ match outcome (getImageBuildInfoFromDockerfile composeHost dockerfileOnBob true),
           outcome (getImageBuildInfoFromImage composeHost "bob-image" true) with
     | inl e, inl e' => e = e'
     | inr info, inr info' => user info = user info' /\ metadata info = metadata info'
     | _, _ => False
     end.
Proof.
  apply (dockerfile_without_user_resolves_as_its_base composeHost dockerfileOnBob true
           "bob-image").
  - left. reflexivity.
  - reflexivity.
  - discriminate.
Defined.

(** X14: with the flag disabled no resolution, of whatever kind of
    configuration, parses a label or writes a diagnostic, and the build
    info it returns has no metadata entry. *)
Theorem disabled_flag_means_no_metadata (c : Collaborators) (config : jsobj) :
  (forall text, ~ In (JsonParse text) (trace (getImageBuildInfo c config false)))
  /\ (forall message, ~ In (OutputWrite message) (trace (getImageBuildInfo c config false)))
  /\ (forall info,
        outcome (getImageBuildInfo c config false) = inr info -> metadata info = []).
Proof.
  destruct (resolution_decomposes c config false)
    as (pre & sub & Hrun & Hpre & _ & Hinspect & Hmetadata & _).
  rewrite Hrun. unfold trace at 1 2, outcome at 1. simpl fst. simpl snd.
  unfold prefix_ok in Hpre. apply andb_prop in Hpre as [_ Hlow].
  specialize (Hinspect eq_refl).
  assert (Hrank : forall e, In e (pre ++ trace sub)%list -> rank e <= 4).
  { intros e Hin. apply in_app_or in Hin as [Hin|Hin].
    - pose proof (forallb_rank _ _ _ Hlow Hin) as H. apply Nat.ltb_lt in H. lia.
    - pose proof (forallb_rank _ _ _ Hinspect Hin) as H. now apply Nat.leb_le in H. }
  split; [|split].
  - intros text Hin. specialize (Hrank _ Hin). simpl in Hrank. lia.
  - intros message Hin. specialize (Hrank _ Hin). simpl in Hrank. lia.
  - now apply Hmetadata.
Qed.

(** X15: the errors of the collaborators come out as they are and stop the
    resolution at the call that failed: the inspection of an image, the
    inspection of the base image of a Dockerfile (also when the Dockerfile
    declares its user), the reading of a Dockerfile that passed the check,
    the resolution of the Compose files and the reading of the Compose
    configuration. *)
Theorem collaborator_errors_propagate (c : Collaborators) (flag : bool) :
  (forall imageName e,
      inspectDockerImage c imageName = inl e ->
      getImageBuildInfoFromImage c imageName flag = ([InspectImage imageName], inl e))
  /\ (forall dockerfile name e,
        findBaseImage c dockerfile = Some name -> name <> "" ->
        inspectDockerImage c name = inl e ->
        getImageBuildInfoFromDockerfile c dockerfile flag = ([InspectImage name], inl e))
  /\ (forall config e,
        isDockerFileConfig c config = true ->
        toBoolean (isFile c (uriToWSLFsPath c (getDockerfilePath c config))) = true ->
        readFile c (uriToWSLFsPath c (getDockerfilePath c config)) = inl e ->
        getImageBuildInfo c config flag
        = ( [ IsFile (uriToWSLFsPath c (getDockerfilePath c config));
              ReadFile (uriToWSLFsPath c (getDockerfilePath c config)) ],
            inl e ))
  /\ (forall config e,
        isDockerFileConfig c config = false ->
        key_in "dockerComposeFile" config = true ->
        getDockerComposeFilePaths c config = inl e ->
        getImageBuildInfo c config flag
        = ( ((if emptyComposeFileList config then [IsFile (cwdEnvFile c)] else [])
               ++ [ComposeFilePaths])%list,
            inl e ))
  /\ (forall config composeFiles e,
        isDockerFileConfig c config = false ->
        key_in "dockerComposeFile" config = true ->
        getDockerComposeFilePaths c config = inr composeFiles ->
        readDockerComposeConfig c composeFiles (envFileOf c config) = inl e ->
        getImageBuildInfo c config flag = (composePrefix c config composeFiles, inl e)).
Proof.
  split; [|split; [|split; [|split]]].
  - intros imageName e Hinspect.
    unfold getImageBuildInfoFromImage. rewrite Hinspect. reflexivity.
  - intros dockerfile name e Hbase Hname Hinspect.
    unfold getImageBuildInfoFromDockerfile, internalGetImageBuildInfoFromDockerfile.
    rewrite Hbase. unfold nonempty.
    destruct (String.eqb_spec name "") as [|_]; [contradiction|]. simpl negb. cbv iota.
    rewrite Hinspect. reflexivity.
  - intros config e Hconfig Hfound Hread.
    unfold getImageBuildInfo. rewrite Hconfig. cbv zeta.
    unfold call at 1. rewrite bind_value, Hfound, Hread. reflexivity.
  - intros config e. apply compose_branch_paths_error.
  - intros config composeFiles e. apply compose_branch_read_error.
Qed.

(** X16: a Dockerfile that names no base image is resolved without any
    call, whatever the flag: no metadata entry, and as user the [USER]
    directive when one is found, [root] otherwise. *)
Theorem dockerfile_without_base_image
    (c : Collaborators) (dockerfile : string) (flag : bool) :
  findBaseImage c dockerfile = None \/ findBaseImage c dockerfile = Some "" ->
  exists info,
    getImageBuildInfoFromDockerfile c dockerfile flag = ([], inr info)
    /\ metadata info = []
    /\ (forall u, findUserStatement c dockerfile = Some u -> u <> "" -> user info = u)
    /\ (findUserStatement c dockerfile = None \/ findUserStatement c dockerfile = Some "" ->
        user info = "root").
Proof.
  intros Hbase. eexists. split.
  - exact (dockerfile_build_info_without_base c (inspectCall c) dockerfile flag Hbase).
  - cbn [user metadata]. split; [reflexivity|]. split.
    + intros u Hu Hne. rewrite Hu. now apply or_else_found.
    + intros [Hu|Hu]; now rewrite Hu.
Qed.

Lemma dockerfile_without_base_image_witness :
  exists info,
    getImageBuildInfoFromDockerfile composeHost "USER carol" true = ([], inr info)
    /\ metadata info = []
    /\ (forall u, findUserStatement composeHost "USER carol" = Some u -> u <> "" ->
        user info = u)
    /\ (findUserStatement composeHost "USER carol" = None
        \/ findUserStatement composeHost "USER carol" = Some "" ->
        user info = "root").
Proof.
  apply (dockerfile_without_base_image composeHost "USER carol" true).
  left. reflexivity.
Defined.

(** X17: the user of a build info is never the empty string, whatever the
    configuration, the collaborators and the flag. *)
Theorem resolved_user_is_not_empty
    (c : Collaborators) (config : jsobj) (flag : bool) (info : ImageBuildInfo) :
  outcome (getImageBuildInfo c config flag) = inr info -> user info <> "".
Proof.
  destruct (resolution_decomposes c config flag)
    as (pre & sub & Hrun & _ & _ & _ & _ & Huser).
  rewrite Hrun. unfold outcome at 1. simpl snd. apply Huser.
Qed.

Lemma resolved_user_is_not_empty_witness :
  outcome (getImageBuildInfo composeHost (composeConfigOf "db") true)
  = inr {| user := "root"; metadata := []; imageDetails := Some plainImage |}
  /\ user {| user := "root"; metadata := []; imageDetails := Some plainImage |} <> "".
Proof.
  split; [reflexivity|].
  apply (resolved_user_is_not_empty composeHost (composeConfigOf "db") true).
  reflexivity.
Defined.

(** X18: a Dockerfile-backed configuration whose Dockerfile passes the
    check and is read resolves as the text that was read: after the two
    file calls, the calls and the outcome are those of the resolution of
    that text. *)
Theorem dockerfile_config_resolves_its_text
    (c : Collaborators) (config : jsobj) (flag : bool) (text : string) :
  isDockerFileConfig c config = true ->
  toBoolean (isFile c (uriToWSLFsPath c (getDockerfilePath c config))) = true ->
  readFile c (uriToWSLFsPath c (getDockerfilePath c config)) = inr text ->
  getImageBuildInfo c config flag
  = ( IsFile (uriToWSLFsPath c (getDockerfilePath c config))
        :: ReadFile (uriToWSLFsPath c (getDockerfilePath c config))
        :: trace (getImageBuildInfoFromDockerfile c text flag),
      outcome (getImageBuildInfoFromDockerfile c text flag) ).
Proof.
  intros Hconfig Hfound Hread.
  unfold getImageBuildInfo. rewrite Hconfig. cbv zeta.
  unfold call at 1. rewrite bind_value, Hfound. simpl negb. cbv iota.
  unfold call. rewrite Hread, bind_value. reflexivity.
Qed.

Lemma dockerfile_config_resolves_its_text_witness :
  getImageBuildInfo composeHost dockerfileConfig true
  = ( [IsFile dockerfilePath0; ReadFile dockerfilePath0; InspectImage "bob-image"],
      inr {| user := "alice"; metadata := []; imageDetails := None |} ).
Proof.
  apply (dockerfile_config_resolves_its_text composeHost dockerfileConfig true
           dockerfileAliceOnBob);
    reflexivity.
Defined.

(** X19: the calls of a resolution come in one order, and none is made
    twice: [isFile], the resolution of the Compose files, the reading of
    the Compose configuration, [readFile], the inspection of an image, the
    parse of its label, the diagnostic.  A resolution makes some of them,
    in this order. *)
Theorem resolution_calls_in_order (c : Collaborators) (config : jsobj) (flag : bool) :
  ordered_from 0 (trace (getImageBuildInfo c config flag)) = true.
Proof.
  destruct (resolution_decomposes c config flag)
    as (pre & sub & Hrun & Hpre & Hordered & _).
  rewrite Hrun. unfold trace at 1. simpl fst.
  unfold prefix_ok in Hpre. apply andb_prop in Hpre as [Hpre Hlow].
  apply ordered_app; [lia | assumption..].
Qed.

(** X21: a service of the Compose configuration resolves as what it is
    built from.  A service without a build resolves as its image does; a
    service with a build has its Dockerfile read, at the path itself when
    that is absolute and at the path resolved against the build context
    otherwise, without a check that the file is there, and resolves as the
    text that was read. *)
Theorem compose_service_resolves_as_its_source
    (c : Collaborators) (config : jsobj) (flag : bool)
    (composeFiles : list string) (composeConfig : ComposeConfig)
    (service : string) (definition : jsobj) :
  isDockerFileConfig c config = false ->
  key_in "dockerComposeFile" config = true ->
  prop_get config "service" = Some (JStr service) ->
  getDockerComposeFilePaths c config = inr composeFiles ->
  readDockerComposeConfig c composeFiles (envFileOf c config) = inr composeConfig ->
  prop_get match services composeConfig with
           | Some table => table
           | None => []
           end service = Some (JObj definition) ->
  (forall image,
      getBuildInfoForService c definition composeFiles = None ->
      prop_get definition "image" = Some (JStr image) ->
      getImageBuildInfo c config flag
      = ( (composePrefix c config composeFiles
             ++ trace (getImageBuildInfoFromImage c image flag))%list,
          outcome (getImageBuildInfoFromImage c image flag) ))
  /\ (forall build text,
        getBuildInfoForService c definition composeFiles = Some build ->
        readFile c (if path_isAbsolute c (dockerfilePath build)
                    then dockerfilePath build
                    else path_resolve c (context build) (dockerfilePath build))
        = inr text ->
        getImageBuildInfo c config flag
        = ( (composePrefix c config composeFiles
               ++ ReadFile (if path_isAbsolute c (dockerfilePath build)
                            then dockerfilePath build
                            else path_resolve c (context build) (dockerfilePath build))
               :: trace (getImageBuildInfoFromDockerfile c text flag))%list,
            outcome (getImageBuildInfoFromDockerfile c text flag) )).
Proof.
  intros Hdockerfile Hcompose Hservice Hpaths Hread Hdefinition.
  rewrite (compose_branch_service c config flag composeFiles composeConfig
             Hdockerfile Hcompose Hpaths Hread).
  assert (Hname : string_prop config "service" = service).
  { unfold string_prop. now rewrite Hservice. }
  unfold resolveService. cbv zeta. rewrite Hname, Hdefinition.
  split.
  - intros image Hbuild Himage. rewrite Hbuild.
    assert (Himage' : string_prop definition "image" = image).
    { unfold string_prop. now rewrite Himage. }
    now rewrite Himage'.
  - intros build text Hbuild Htext. rewrite Hbuild.
    unfold call. rewrite Htext, bind_value. reflexivity.
Qed.

Lemma compose_service_resolves_as_its_source_witness :
  getImageBuildInfo composeHost (composeConfigOf "app") true
  = ( [ IsFile "/workspace/.env"; ComposeFilePaths;
        ReadComposeConfig ["/workspace/docker-compose.yml"] (Some "/workspace/.env");
        ReadFile "/workspace/app/Dockerfile"; InspectImage "bob-image" ],
      inr {| user := "alice"; metadata := []; imageDetails := None |} ).
Proof.
  destruct (compose_service_resolves_as_its_source composeHost (composeConfigOf "app") true
              ["/workspace/docker-compose.yml"]
              {| services :=
                   Some [ ("app", JObj [("build", JObj [("context", JStr "app")])]);
                          ("db", JObj [("image", JStr "plain-image")]) ] |}
              "app" [("build", JObj [("context", JStr "app")])]
              eq_refl eq_refl eq_refl eq_refl eq_refl eq_refl)
    as [_ Hbuild].
  exact (Hbuild {| context := "/workspace/app"; dockerfilePath := "Dockerfile" |}
           dockerfileAliceOnBob eq_refl eq_refl).
Defined.

(** ** Properties outside the allow-lists *)

Lemma pick_fold_agree (o1 o2 : jsobj) (keys : list string) (res : jsobj) :
  (forall k, In k keys -> prop_get o1 k = prop_get o2 k) ->
  fold_left
    (fun res key =>
       match prop_get o1 key with
       | Some v => prop_set res key v
       | None => res
       end) keys res
  = fold_left
      (fun res key =>
         match prop_get o2 key with
         | Some v => prop_set res key v
         | None => res
         end) keys res.
Proof.
  revert res. induction keys as [|key keys IH]; intros res H; simpl; [reflexivity|].
  rewrite (H key (or_introl eq_refl)). apply IH.
  intros k Hk. apply H. now right.
Qed.

Lemma pick_ignores_other_key (obj : jsobj) (keys : list string) (k : string) (v : json) :
  ~ In k keys -> pick (prop_set obj k v) keys = pick obj keys.
Proof.
  intros Hk. unfold pick. apply pick_fold_agree.
  intros k' Hk'. rewrite prop_get_set.
  destruct (String.eqb_spec k k') as [->|_]; [contradiction | reflexivity].
Qed.

(** X22: a property outside the allow-lists never reaches the metadata:
    setting it on the configuration to any value (other than the
    [dockerComposeFile] property, which decides the allow-list) leaves the
    entries of the current layer as they were. *)
Theorem unlisted_property_does_not_matter
    (devContainerConfig : jsobj) (featuresConfig : FeaturesInput)
    (key : string) (value : json) :
  ~ In key pickSingleContainerConfigProperties ->
  key <> "dockerComposeFile" ->
  getDevcontainerMetadata (prop_set devContainerConfig key value) featuresConfig
  = getDevcontainerMetadata devContainerConfig featuresConfig.
Proof.
  intros Hkey Hcompose. unfold getDevcontainerMetadata. f_equal.
  assert (Hin : key_in "dockerComposeFile" (prop_set devContainerConfig key value)
                = key_in "dockerComposeFile" devContainerConfig).
  { unfold key_in. rewrite prop_get_set.
    destruct (String.eqb_spec key "dockerComposeFile"); [contradiction | reflexivity]. }
  rewrite Hin.
  rewrite !pick_ignores_other_key; [reflexivity | exact Hkey |].
  intros H. apply Hkey. unfold pickSingleContainerConfigProperties.
  apply in_or_app. now right.
Qed.

Lemma unlisted_property_does_not_matter_witness :
  getDevcontainerMetadata (prop_set dockerfileConfig "name" (JStr "demo"))
    (FeatureArray [[("id", JStr "git")]])
  = getDevcontainerMetadata dockerfileConfig (FeatureArray [[("id", JStr "git")]]).
Proof.
  apply (unlisted_property_does_not_matter dockerfileConfig
           (FeatureArray [[("id", JStr "git")]]) "name" (JStr "demo")).
  - intros H. simpl in H.
    repeat (destruct H as [H|H]; [discriminate H|]). exact H.
  - discriminate.
Defined.
